(** * awsxray-exporter: a shallow embedding of [src/index.ts]

    The program polls AWS X-Ray for the traces of the last polling interval,
    wraps every segment document in the one-line header of the X-Ray daemon
    protocol and sends it over UDP.  This file embeds the module-level
    configuration, [fetchTraces], [batchArray], [sendTracesToOtelUdp] and
    [main], and proves the properties the specification states about them.

    What the program does is recorded as a list of events (console lines,
    batch reads, datagrams, sleeps) together with the way the code ended.
    The SIGTERM handler and the completion callback of [dgram]'s [send],
    which only logs, are left out. *)

From Stdlib Require Import String Ascii.
From Stdlib.Strings Require Import Byte.
From Stdlib Require Import ZArith NArith List Bool Lia.
From Stdlib Require Import SpecFloat.
Import ListNotations.

Set Implicit Arguments.
Local Set Warnings "-register-all".
Local Open Scope list_scope.

(* ================================================================== *)
(** * JavaScript strings and Node buffers *)
(* ================================================================== *)

(** A JavaScript string is a sequence of UTF-16 code units. *)
Definition code_unit := N.
Definition jsstring := list code_unit.

(** String literals of the source are ASCII; [js] reads them off a Rocq
    string literal, one code unit per character. *)
Fixpoint js (s : string) : jsstring :=
  match s with
  | EmptyString => []
  | String c rest => N_of_ascii c :: js rest
  end.

Definition jsstring_eqb (a b : jsstring) : bool :=
  if list_eq_dec N.eq_dec a b then true else false.

Module Utf8.

Definition octet (n : N) : byte :=
  match Byte.of_N (n mod 256) with
  | Some b => b
  | None => x00
  end.

Definition is_high_surrogate (c : code_unit) : bool :=
  ((0xD800 <=? c) && (c <=? 0xDBFF))%N.
Definition is_low_surrogate (c : code_unit) : bool :=
  ((0xDC00 <=? c) && (c <=? 0xDFFF))%N.

(** The code point of a surrogate pair. *)
Definition pair_code_point (hi lo : code_unit) : N :=
  (0x10000 + (hi - 0xD800) * 0x400 + (lo - 0xDC00))%N.

(** U+FFFD, what Node writes for a surrogate that has no partner. *)
Definition replacement : list byte := [xef; xbf; xbd].

Definition encode_code_point (cp : N) : list byte :=
  if (cp <? 0x80)%N then [octet cp]
  else if (cp <? 0x800)%N then
    [octet (0xC0 + N.shiftr cp 6); octet (0x80 + N.land cp 0x3F)]
  else if (cp <? 0x10000)%N then
    [octet (0xE0 + N.shiftr cp 12);
     octet (0x80 + N.land (N.shiftr cp 6) 0x3F);
     octet (0x80 + N.land cp 0x3F)]
  else
    [octet (0xF0 + N.shiftr cp 18);
     octet (0x80 + N.land (N.shiftr cp 12) 0x3F);
     octet (0x80 + N.land (N.shiftr cp 6) 0x3F);
     octet (0x80 + N.land cp 0x3F)].

(** [Buffer.from(str)] with the default encoding, UTF-8. *)
Fixpoint encode (s : jsstring) : list byte :=
  match s with
  | [] => []
  | c :: rest =>
      if is_high_surrogate c then
        match rest with
        | d :: rest' =>
            if is_low_surrogate d
            then encode_code_point (pair_code_point c d) ++ encode rest'
            else replacement ++ encode rest
        | [] => replacement
        end
      else if is_low_surrogate c then replacement ++ encode rest
      else encode_code_point c ++ encode rest
  end.

End Utf8.

(** A Node [Buffer] is a sequence of bytes. *)
Definition Buffer := list byte.
Definition Buffer_from (s : jsstring) : Buffer := Utf8.encode s.

(* ================================================================== *)
(** * [batchArray] (index.ts, lines 37-41) *)
(* ================================================================== *)

Section BatchArray.
Variable A : Type.

(** [array.slice(start, end)] for indices [0 <= start <= end], the only
    ones [batchArray] passes: the elements at positions
    [start .. min end length - 1]. *)
Definition slice (array : list A) (start end_ : nat) : list A :=
  firstn (end_ - start) (skipn start array).

(** The generator's loop [for (let i = 0; i < array.length; i += size)],
    from index [i], as the list of the chunks it yields.  The loop of
    the source does not terminate when [size] is 0, so the model runs on
    fuel and answers [None] when the fuel is used up. *)
Fixpoint batchArray_from (fuel : nat) (array : list A) (size i : nat)
  : option (list (list A)) :=
  match fuel with
  | O => None
  | S fuel' =>
      if i <? length array then
        match batchArray_from fuel' array size (i + size) with
        | Some chunks => Some (slice array i (i + size) :: chunks)
        | None => None
        end
      else Some []
  end.

(** One unit of fuel per element and one for the final test is enough
    whenever [size > 0]. *)
Definition batchArray (array : list A) (size : nat)
  : option (list (list A)) :=
  batchArray_from (S (length array)) array size 0.

End BatchArray.


(* ================================================================== *)
(** * JavaScript numbers *)
(* ================================================================== *)

(** A JavaScript Number is an IEEE 754 binary64 value; [spec_float] with
    53 bits of precision and [emax = 1024] is the Standard Library's
    specification of that format, and its operations round to nearest,
    ties to even, as JavaScript's do. *)
Module Num.

Definition prec : Z := 53.
Definition emax : Z := 1024.

Definition number := spec_float.

Definition NaN : number := S754_nan.

(** The Number with the value of the integer [z] (exact when
    [|z| <= 2^53], rounded otherwise). *)
Definition of_Z (z : Z) : number := binary_normalize prec emax z 0 false.

(** The canonical form of a non-zero integer of magnitude below [2^53]:
    a 53-bit mantissa and the exponent that goes with it. *)
Definition canon (z : Z) : number :=
  S754_finite (z <? 0)%Z
    (Z.to_pos (Z.abs z * 2 ^ (52 - Z.log2 (Z.abs z))))
    (Z.log2 (Z.abs z) - 52).

Definition mul (x y : number) : number := SFmul prec emax x y.
Definition sub (x y : number) : number := SFsub prec emax x y.

(** ToBoolean on a Number: [+0], [-0] and [NaN] are falsy. *)
Definition ToBoolean (x : number) : bool :=
  match x with
  | S754_zero _ | S754_nan => false
  | S754_infinity _ | S754_finite _ _ _ => true
  end.

(** [x || y] on Numbers. *)
Definition or_else (x y : number) : number :=
  if ToBoolean x then x else y.

(** The integer a finite Number truncates to (ToIntegerOrInfinity),
    [None] for NaN and the infinities. *)
Definition truncate (x : number) : option Z :=
  match x with
  | S754_zero _ => Some 0%Z
  | S754_finite s m e =>
      let a := match e with
               | Zneg k => Z.shiftr (Zpos m) (Zpos k)
               | _ => Z.shiftl (Zpos m) e
               end in
      Some (if s then Z.opp a else a)
  | S754_infinity _ | S754_nan => None
  end.

End Num.
Definition number : Type := Num.number.

(* ================================================================== *)
(** * Dates *)
(* ================================================================== *)

(** A [Date] holds a time value: a whole number of milliseconds since the
    epoch with magnitude at most 8.64e15, or NaN (an invalid date, [None]
    here). *)
Module Date.

Definition t := option Z.

Definition max_time : Z := 8640000000000000.

(** TimeClip: out-of-range and non-finite values give an invalid date,
    the others are truncated to an integer.  Every Number of magnitude
    [2^52] or more is an integer, so the range test may be made on the
    truncated value. *)
Definition TimeClip (x : number) : t :=
  match Num.truncate x with
  | Some z => if (Z.abs z <=? max_time)%Z then Some z else None
  | None => None
  end.

(** [new Date(value)] for a Number [value]. *)
Definition of_number (value : number) : t := TimeClip value.

(** [d.getTime()]. *)
Definition getTime (d : t) : number :=
  match d with
  | Some z => Num.of_Z z
  | None => Num.NaN
  end.

End Date.

(* ================================================================== *)
(** * Values of [JSON.parse] *)
(* ================================================================== *)

(** The values [JSON.parse] can return.  The members of an object are kept
    in the order of the text; when a name occurs twice the later member is
    the one the object holds. *)
Inductive JsValue : Type :=
| JNull
| JBool (b : bool)
| JNumber (x : number)
| JString (s : jsstring)
| JArray (items : list JsValue)
| JObject (members : list (jsstring * JsValue)).

(** What a property read gives: a value or [undefined]. *)
Definition JsMaybe := option JsValue.

Fixpoint lookup_member (name : jsstring) (members : list (jsstring * JsValue))
  : JsMaybe :=
  match members with
  | [] => None
  | (k, v) :: rest =>
      match lookup_member name rest with
      | Some later => Some later
      | None => if jsstring_eqb k name then Some v else None
      end
  end.

(** ToBoolean. *)
Definition truthy (v : JsMaybe) : bool :=
  match v with
  | None => false
  | Some JNull => false
  | Some (JBool b) => b
  | Some (JNumber x) => Num.ToBoolean x
  | Some (JString s) => match s with [] => false | _ => true end
  | Some (JArray _) => true
  | Some (JObject _) => true
  end.

(** ToBoolean of an optional string ([process.env.X], [segment.Document],
    [summary.Id]): [undefined] and the empty string are falsy. *)
Definition truthy_string (s : option jsstring) : bool :=
  match s with
  | None => false
  | Some [] => false
  | Some (_ :: _) => true
  end.

(* ================================================================== *)
(** * Exceptions, events and the effect monad *)
(* ================================================================== *)

(** A thrown value: an error object with its constructor's name and its
    message. *)
Record Exception : Type := Exn { exn_name : string; exn_message : jsstring }.

(** An argument of [console.log] or [console.error]. *)
Inductive LogArg : Type :=
| LStr (s : string)
| LNat (n : nat)
| LErr (e : Exception).

(** What the program does to the outside world, in program order. *)
Inductive Event : Type :=
| ConsoleLog (args : list LogArg)
| ConsoleError (args : list LogArg)
| BatchGetTraces (TraceIds : list jsstring)
| UdpSend (message : Buffer) (offset length_ port : nat) (address : jsstring)
| Sleep (ms : number).

(** How a piece of code ends: normally with a value, by throwing, or not
    at all. *)
Inductive Completion (A : Type) : Type :=
| Normal (a : A)
| Throw (e : Exception)
| Diverge.
Arguments Normal {A} a.
Arguments Throw {A} e.
Arguments Diverge {A}.

(** A computation: the events it performed and how it ended. *)
Definition M (A : Type) : Type := list Event * Completion A.

Definition ret {A} (a : A) : M A := ([], Normal a).
Definition throw {A} (e : Exception) : M A := ([], Throw e).
Definition diverge {A} : M A := ([], Diverge).
Definition emit (ev : Event) : M unit := ([ev], Normal tt).

Definition bind {A B} (m : M A) (k : A -> M B) : M B :=
  match m with
  | (evs, Normal a) => let (evs', c) := k a in (evs ++ evs', c)
  | (evs, Throw e) => (evs, Throw e)
  | (evs, Diverge) => (evs, Diverge)
  end.

Notation "x <- m ;; k" := (bind m (fun x => k))
  (at level 61, m at next level, right associativity).
Notation "m ;;; k" := (bind m (fun _ => k))
  (at level 61, right associativity).

(** [try { m } catch (error) { handler(error) }]. *)
Definition try_catch {A} (m : M A) (handler : Exception -> M A) : M A :=
  match m with
  | (evs, Throw e) => let (evs', c) := handler e in (evs ++ evs', c)
  | other => other
  end.

(** [array.forEach(callback)] and [for (const x of array)]: the callback
    runs on the elements in order, and a throw ends the iteration. *)
Fixpoint forEach {A} (array : list A) (callback : A -> M unit) : M unit :=
  match array with
  | [] => ret tt
  | x :: rest => callback x ;;; forEach rest callback
  end.

(** [optional?.forEach(callback)]. *)
Definition forEach_opt {A} (array : option (list A)) (callback : A -> M unit)
  : M unit :=
  match array with
  | None => ret tt
  | Some a => forEach a callback
  end.

Definition console_log (args : list LogArg) : M unit := emit (ConsoleLog args).
Definition console_error (args : list LogArg) : M unit :=
  emit (ConsoleError args).

Definition events {A} (m : M A) : list Event := fst m.
Definition completion {A} (m : M A) : Completion A := snd m.

(* ================================================================== *)
(** * The X-Ray client (@aws-sdk/client-xray) *)
(* ================================================================== *)

(** The fields of the SDK's shapes that the program reads. *)
Record Segment : Type := { Document : option jsstring }.
Record Trace : Type := { Segments : option (list Segment) }.
Record TraceSummary : Type := { Id : option jsstring }.
Record GetTraceSummariesResult : Type :=
  { TraceSummaries : option (list TraceSummary) }.
Record BatchGetTracesResult : Type := { Traces : option (list Trace) }.

(** What an SDK paginator (an async generator) does when it is iterated:
    it ends, yields a page and goes on, or throws. *)
Inductive Paginator (Page : Type) : Type :=
| Done
| Yield (page : Page) (next : Paginator Page)
| Fail (e : Exception).
Arguments Done {Page}.
Arguments Yield {Page} page next.
Arguments Fail {Page} e.

(** The paginator that yields the pages [before], one after the other,
    and then does what [rest] does. *)
Definition pages_then {Page} (before : list Page) (rest : Paginator Page)
  : Paginator Page :=
  fold_right Yield rest before.

(** The service as the program sees it during one poll cycle. *)
Record XRay : Type := {
  paginateGetTraceSummaries :
    Date.t -> Date.t -> option jsstring -> Paginator GetTraceSummariesResult;
  paginateBatchGetTraces :
    list jsstring -> Paginator BatchGetTracesResult
}.

(** One poll cycle's surroundings: the clock reading of [new Date()], a
    valid time value, and the service's answers. *)
Record Cycle : Type := { now : Z; xray : XRay }.

(** [process.env], the three variables the program reads. *)
Record Env : Type := {
  POLLING_INTERVAL_SECONDS : option jsstring;
  OTEL_COLLECTOR_URL : option jsstring;
  FILTER_EXPRESSION : option jsstring
}.

(** The module-level constants once the module has loaded. *)
Record Config : Type := {
  cfg_POLLING_INTERVAL : number;
  cfg_OTEL_COLLECTOR_URL : jsstring;
  cfg_FILTER_EXPRESSION : option jsstring
}.

Definition quote : code_unit := 34%N.
Definition newline : code_unit := 10%N.

(** The text before the newline in the template literal of line 75,
    [{"format": "json", "version": 1}]. *)
Definition header : jsstring :=
  js "{" ++ [quote] ++ js "format" ++ [quote] ++ js ": " ++
  [quote] ++ js "json" ++ [quote] ++ js ", " ++
  [quote] ++ js "version" ++ [quote] ++ js ": 1}".

Definition inferred_key : jsstring := js "inferred".

Definition null_read_error : Exception :=
  Exn "TypeError" (js "Cannot read properties of null (reading 'inferred')").

(** The [inferred] property of a value other than [null]: an object gives
    its member; the other values (booleans, numbers, strings and arrays)
    have no property of that name. *)
Definition inferred_of (value : JsValue) : JsMaybe :=
  match value with
  | JObject members => lookup_member inferred_key members
  | JNull | JBool _ | JNumber _ | JString _ | JArray _ => None
  end.

(** [value.inferred]: reading a property off [null] throws a TypeError. *)
Definition get_inferred (value : JsValue) : M JsMaybe :=
  match value with
  | JNull => throw null_read_error
  | _ => ret (inferred_of value)
  end.

Definition required_error : Exception :=
  Exn "Error" (js "OTEL_COLLECTOR_URL environment variable is required").

Definition is_ascii (c : code_unit) : bool := (c <? 0x80)%N.

(** The bytes of the header line and its newline: 33 bytes of ASCII. *)
Definition envelope_prefix : Buffer :=
  Eval vm_compute in Buffer_from (header ++ [newline]).

Section Program.

(** The two built-ins of the platform whose results the program depends
    on, taken as they are: [JSON.parse] on a string (a value, or the
    SyntaxError it throws) and [Number] on an environment entry. *)
Variable JSON_parse : jsstring -> Exception + JsValue.
Variable Number_ : option jsstring -> number.

Definition parse (text : jsstring) : M JsValue :=
  match JSON_parse text with
  | inl e => throw e
  | inr v => ret v
  end.

(** ** Module initialisation (lines 9-16) *)

Definition POLLING_INTERVAL (env : Env) : number :=
  Num.or_else
    (Num.mul (Number_ (POLLING_INTERVAL_SECONDS env)) (Num.of_Z 1000))
    (Num.of_Z 10000).

Definition load (env : Env) : Exception + Config :=
  let interval := POLLING_INTERVAL env in
  if negb (truthy_string (OTEL_COLLECTOR_URL env)) then inl required_error
  else
    match OTEL_COLLECTOR_URL env with
    | None => inl required_error
    | Some url =>
        inr {| cfg_POLLING_INTERVAL := interval;
               cfg_OTEL_COLLECTOR_URL := url;
               cfg_FILTER_EXPRESSION := FILTER_EXPRESSION env |}
    end.

Section Running.
Variable cfg : Config.

(** ** [sendTracesToOtelUdp] (lines 66-90) *)

(** The arrow function given to [Segments?.forEach]. *)
Definition send_segment (trace : Segment) : M unit :=
  if negb (truthy_string (Document trace)) then ret tt
  else
    match Document trace with
    | None => ret tt
    | Some document =>
        parsed <- parse document ;;
        inferred <- get_inferred parsed ;;
        if truthy inferred then ret tt
        else
          let message := Buffer_from (header ++ [newline] ++ document) in
          emit (UdpSend message 0 (length message) 2000
                  (cfg_OTEL_COLLECTOR_URL cfg))
    end.

Definition sendTracesToOtelUdp (traceData : Trace) : M unit :=
  forEach_opt (Segments traceData) send_segment.

(** ** [fetchTraces] (lines 18-62) *)

(** [TraceSummaries?.flatMap((trace) => trace.Id ? [trace.Id] : [])]. *)
Definition trace_ids (page : GetTraceSummariesResult)
  : option (list jsstring) :=
  option_map
    (flat_map (fun trace =>
       if truthy_string (Id trace) then
         match Id trace with
         | Some id => [id]
         | None => []
         end
       else []))
    (TraceSummaries page).

(** The inner [for await] over the pages of one batch (lines 48-55). *)
Fixpoint for_await_traces (pages : Paginator BatchGetTracesResult)
  : M unit :=
  match pages with
  | Done => ret tt
  | Fail e => throw e
  | Yield traces next =>
      forEach_opt (Traces traces) sendTracesToOtelUdp ;;;
      for_await_traces next
  end.

(** The body of [for (const batch of batchedTraceIds)] (lines 48-55):
    one batch read, drained page by page. *)
Definition fetch_batch (service : XRay) (batch : list jsstring) : M unit :=
  emit (BatchGetTraces batch) ;;;
  for_await_traces (paginateBatchGetTraces service batch).

(** What the body of the outer loop does with the identifiers of a page
    (lines 43-57). *)
Definition page_body (service : XRay) (traceIds : list jsstring) : M unit :=
  console_log [LStr "Found"; LNat (length traceIds);
               LStr "traces from xray"] ;;;
  match batchArray traceIds 5 with
  | None => diverge
  | Some batchedTraceIds => forEach batchedTraceIds (fetch_batch service)
  end ;;;
  console_log [LStr "Sent"; LNat (length traceIds); LStr "traces to OTel"].

(** The outer [for await] over the summary pages (lines 23-58).  The
    body runs on a page before the next page is asked for; the [return]
    of line 33 leaves the pages that remain unread. *)
Fixpoint for_await_summaries (service : XRay)
    (pages : Paginator GetTraceSummariesResult) : M unit :=
  match pages with
  | Done => ret tt
  | Fail e => throw e
  | Yield traceSummaries next =>
      match trace_ids traceSummaries with
      | None => console_log [LStr "No trace IDs found"]
      | Some traceIds =>
          page_body service traceIds ;;;
          for_await_summaries service next
      end
  end.

(** The time window of a cycle: [EndTime] and [StartTime]. *)
Definition EndTime (c : Cycle) : Date.t := Some (now c).
Definition StartTime (c : Cycle) : Date.t :=
  Date.of_number
    (Num.sub (Date.getTime (EndTime c)) (cfg_POLLING_INTERVAL cfg)).

Definition fetchTraces (c : Cycle) : M unit :=
  try_catch
    (for_await_summaries (xray c)
       (paginateGetTraceSummaries (xray c) (StartTime c) (EndTime c)
          (cfg_FILTER_EXPRESSION cfg)))
    (fun error =>
       console_error [LStr "Error fetching traces:"; LErr error]).

(** ** [main] (lines 92-98) *)

(** The first [n] rounds of [while (true)], the [k]-th round in the
    surroundings [world k]. *)
Fixpoint main_from (n : nat) (world : nat -> Cycle) (k : nat) : M unit :=
  match n with
  | O => ret tt
  | S n' =>
      console_log [LStr "Polling X-Ray for traces"] ;;;
      fetchTraces (world k) ;;;
      emit (Sleep (cfg_POLLING_INTERVAL cfg)) ;;;
      main_from n' world (S k)
  end.

Definition main (n : nat) (world : nat -> Cycle) : M unit :=
  main_from n world 0.

End Running.

(** ** The process *)

(** What the process has done once the loop has gone [n] rounds: it died
    of an uncaught exception while the module loaded, before [main] was
    called, or it ran [main().catch(...)] (line 108). *)
Inductive Process : Type :=
| Crashed (e : Exception)
| Started (run : M unit).

Definition start (env : Env) (n : nat) (world : nat -> Cycle) : Process :=
  match load env with
  | inl e => Crashed e
  | inr cfg =>
      Started
        (try_catch (main cfg n world)
           (fun error => console_error [LStr "Error in main:"; LErr error]))
  end.

End Program.

(* ================================================================== *)
(** * Reference implementations of the two built-ins *)
(* ================================================================== *)

(** The theorems below hold for any [JSON_parse] and [Number_]; the
    closed examples run the program with these two functions, written
    after ECMA-262: StringToNumber (7.1.4.1.1) and JSON.parse (25.5.1). *)
Module Ecma.

Definition in_range (lo hi c : N) : bool := ((lo <=? c) && (c <=? hi))%N.

Definition digit_value (radix : Z) (c : code_unit) : option Z :=
  let v :=
    if in_range 48 57 c then Some (Z.of_N c - 48)%Z
    else if in_range 97 122 c then Some (Z.of_N c - 87)%Z
    else if in_range 65 90 c then Some (Z.of_N c - 55)%Z
    else None in
  match v with
  | Some d => if (d <? radix)%Z then Some d else None
  | None => None
  end.

(** Reads the longest run of digits: their value, their count and the
    rest of the text. *)
Fixpoint read_digits (radix : Z) (s : jsstring) (acc count : Z)
  : Z * Z * jsstring :=
  match s with
  | [] => (acc, count, [])
  | c :: rest =>
      match digit_value radix c with
      | Some d => read_digits radix rest (radix * acc + d)%Z (count + 1)%Z
      | None => (acc, count, s)
      end
  end.

(** The Number nearest to [m * 10^e], ties to even. *)
Definition decimal_to_number (negative : bool) (m e : Z) : number :=
  match m with
  | Z0 => S754_zero negative
  | _ =>
      match e with
      | Zneg _ =>
          let '(q, e', loc) :=
            SFdiv_core_binary Num.prec Num.emax m 0 (10 ^ (- e)) 0 in
          binary_round_aux Num.prec Num.emax negative q e' loc
      | _ =>
          binary_normalize Num.prec Num.emax
            (if negative then - (m * 10 ^ e) else m * 10 ^ e) 0 false
      end
  end%Z.

(** The parts of a decimal literal:
    [digits . digits e sign digits], each part optional here; the two
    grammars that use it say which combinations they accept. *)
Record Decimal : Type := {
  int_value : Z; int_count : Z;
  has_point : bool;
  frac_value : Z; frac_count : Z;
  has_exp : bool;
  exp_value : Z; exp_count : Z;
  remainder : jsstring
}.

Definition read_exponent (s : jsstring) : bool * Z * Z * jsstring :=
  match s with
  | c :: rest =>
      if (c =? 101)%N || (c =? 69)%N then
        match rest with
        | sign :: rest' =>
            if (sign =? 45)%N then
              let '(v, n, r) := read_digits 10 rest' 0 0 in
              (true, (- v)%Z, n, r)
            else if (sign =? 43)%N then
              let '(v, n, r) := read_digits 10 rest' 0 0 in
              (true, v, n, r)
            else
              let '(v, n, r) := read_digits 10 rest 0 0 in
              (true, v, n, r)
        | [] => (true, 0%Z, 0%Z, [])
        end
      else (false, 0%Z, 0%Z, s)
  | [] => (false, 0%Z, 0%Z, [])
  end.

Definition read_decimal (s : jsstring) : Decimal :=
  let '(iv, ic, r1) := read_digits 10 s 0 0 in
  let '(point, fv, fc, r2) :=
    match r1 with
    | c :: rest =>
        if (c =? 46)%N then
          let '(v, n, r) := read_digits 10 rest 0 0 in (true, v, n, r)
        else (false, 0%Z, 0%Z, r1)
    | [] => (false, 0%Z, 0%Z, [])
    end in
  let '(ex, ev, ec, r3) := read_exponent r2 in
  {| int_value := iv; int_count := ic; has_point := point;
     frac_value := fv; frac_count := fc;
     has_exp := ex; exp_value := ev; exp_count := ec; remainder := r3 |}.

Definition decimal_number (negative : bool) (d : Decimal) : number :=
  decimal_to_number negative
    (int_value d * 10 ^ frac_count d + frac_value d)%Z
    (exp_value d - frac_count d)%Z.

(** ** StringToNumber *)

Definition is_white_space (c : code_unit) : bool :=
  in_range 9 13 c || (c =? 32)%N || (c =? 0xA0)%N || (c =? 0x1680)%N ||
  in_range 0x2000 0x200A c || (c =? 0x2028)%N || (c =? 0x2029)%N ||
  (c =? 0x202F)%N || (c =? 0x205F)%N || (c =? 0x3000)%N || (c =? 0xFEFF)%N.

Fixpoint trim_start (s : jsstring) : jsstring :=
  match s with
  | c :: rest => if is_white_space c then trim_start rest else s
  | [] => []
  end.

Definition trim (s : jsstring) : jsstring :=
  rev (trim_start (rev (trim_start s))).

(** StrUnsignedDecimalLiteral: [Infinity], or digits with an optional
    fraction and exponent, with a digit before or after the point. *)
Definition unsigned_decimal (negative : bool) (s : jsstring) : number :=
  if jsstring_eqb s (js "Infinity") then S754_infinity negative
  else
    let d := read_decimal s in
    let some_digit := (0 <? int_count d + frac_count d)%Z in
    let exp_ok := negb (has_exp d) || (0 <? exp_count d)%Z in
    match remainder d with
    | [] => if some_digit && exp_ok then decimal_number negative d
            else Num.NaN
    | _ :: _ => Num.NaN
    end.

Definition radix_literal (radix : Z) (s : jsstring) : number :=
  let '(v, n, r) := read_digits radix s 0 0 in
  match r with
  | [] => if (0 <? n)%Z then Num.of_Z v else Num.NaN
  | _ :: _ => Num.NaN
  end.

Definition StringToNumber (s : jsstring) : number :=
  match trim s with
  | [] => S754_zero false
  | c :: rest =>
      if (c =? 43)%N then unsigned_decimal false rest
      else if (c =? 45)%N then unsigned_decimal true rest
      else
        match rest with
        | p :: rest' =>
            if (c =? 48)%N && ((p =? 120)%N || (p =? 88)%N)
            then radix_literal 16 rest'
            else if (c =? 48)%N && ((p =? 111)%N || (p =? 79)%N)
            then radix_literal 8 rest'
            else if (c =? 48)%N && ((p =? 98)%N || (p =? 66)%N)
            then radix_literal 2 rest'
            else unsigned_decimal false (c :: rest)
        | [] => unsigned_decimal false (c :: rest)
        end
  end.

(** [Number(process.env.X)]: [undefined] converts to NaN. *)
Definition Number_ (v : option jsstring) : number :=
  match v with
  | None => Num.NaN
  | Some s => StringToNumber s
  end.

End Ecma.

Module Json.

Definition is_white_space (c : code_unit) : bool :=
  (c =? 9)%N || (c =? 10)%N || (c =? 13)%N || (c =? 32)%N.

Fixpoint skip_ws (s : jsstring) : jsstring :=
  match s with
  | c :: rest => if is_white_space c then skip_ws rest else s
  | [] => []
  end.

(** The character a two-character escape stands for, by its second
    character. *)
Definition simple_escape (c : code_unit) : option code_unit :=
  if (c =? 34)%N then Some 34%N            (* quotation mark *)
  else if (c =? 92)%N then Some 92%N       (* reverse solidus *)
  else if (c =? 47)%N then Some 47%N       (* solidus *)
  else if (c =? 98)%N then Some 8%N        (* backspace *)
  else if (c =? 102)%N then Some 12%N      (* form feed *)
  else if (c =? 110)%N then Some 10%N      (* line feed *)
  else if (c =? 114)%N then Some 13%N      (* carriage return *)
  else if (c =? 116)%N then Some 9%N       (* tab *)
  else None.

Definition hex4 (a b c d : code_unit) : option code_unit :=
  match Ecma.digit_value 16 a, Ecma.digit_value 16 b,
        Ecma.digit_value 16 c, Ecma.digit_value 16 d with
  | Some x, Some y, Some z, Some w =>
      Some (Z.to_N (((x * 16 + y) * 16 + z) * 16 + w))
  | _, _, _, _ => None
  end.

Definition prepend (c : code_unit) (r : option (jsstring * jsstring))
  : option (jsstring * jsstring) :=
  match r with
  | Some (text, rest) => Some (c :: text, rest)
  | None => None
  end.

(** A string literal from after its opening quote: its value and what
    follows the closing quote. *)
Fixpoint read_string (s : jsstring) : option (jsstring * jsstring) :=
  match s with
  | [] => None
  | c :: rest =>
      if (c =? 34)%N then Some ([], rest)
      else if (c =? 92)%N then
        match rest with
        | e :: rest' =>
            if (e =? 117)%N then
              match rest' with
              | h1 :: h2 :: h3 :: h4 :: rest'' =>
                  match hex4 h1 h2 h3 h4 with
                  | Some u => prepend u (read_string rest'')
                  | None => None
                  end
              | _ => None
              end
            else
              match simple_escape e with
              | Some u => prepend u (read_string rest')
              | None => None
              end
        | [] => None
        end
      else if (c <? 32)%N then None
      else prepend c (read_string rest)
  end.

(** A number: [-? (0 | [1-9] digits) (. digits+)? ([eE] [+-]? digits+)?]. *)
Definition read_number (s : jsstring) : option (JsValue * jsstring) :=
  let '(negative, body) :=
    match s with
    | c :: rest => if (c =? 45)%N then (true, rest) else (false, s)
    | [] => (false, s)
    end in
  let d := Ecma.read_decimal body in
  let leading_zero :=
    match body with
    | c :: _ => (c =? 48)%N && (1 <? Ecma.int_count d)%Z
    | [] => false
    end in
  if (0 <? Ecma.int_count d)%Z && negb leading_zero &&
     (negb (Ecma.has_point d) || (0 <? Ecma.frac_count d)%Z) &&
     (negb (Ecma.has_exp d) || (0 <? Ecma.exp_count d)%Z)
  then Some (JNumber (Ecma.decimal_number negative d), Ecma.remainder d)
  else None.

Fixpoint strip_prefix (word s : jsstring) : option jsstring :=
  match word, s with
  | [], _ => Some s
  | w :: word', c :: rest => if (w =? c)%N then strip_prefix word' rest
                             else None
  | _ :: _, [] => None
  end.

Definition read_literal (s : jsstring) : option (JsValue * jsstring) :=
  match strip_prefix (js "true") s with
  | Some rest => Some (JBool true, rest)
  | None =>
      match strip_prefix (js "false") s with
      | Some rest => Some (JBool false, rest)
      | None =>
          match strip_prefix (js "null") s with
          | Some rest => Some (JNull, rest)
          | None => read_number s
          end
      end
  end.

(** The recursive descent.  Every step of a chain of calls either reads
    a character or is followed by one that does, so fuel twice the
    length of the text is never used up. *)
Fixpoint read_value (fuel : nat) (s : jsstring) {struct fuel}
  : option (JsValue * jsstring) :=
  match fuel with
  | O => None
  | S fuel' =>
      match skip_ws s with
      | [] => None
      | c :: rest =>
          if (c =? 123)%N then
            match skip_ws rest with
            | c' :: rest' =>
                if (c' =? 125)%N then Some (JObject [], rest')
                else read_members fuel' rest []
            | [] => None
            end
          else if (c =? 91)%N then
            match skip_ws rest with
            | c' :: rest' =>
                if (c' =? 93)%N then Some (JArray [], rest')
                else read_elements fuel' rest []
            | [] => None
            end
          else if (c =? 34)%N then
            match read_string rest with
            | Some (text, rest') => Some (JString text, rest')
            | None => None
            end
          else read_literal (c :: rest)
      end
  end
with read_elements (fuel : nat) (s : jsstring) (seen : list JsValue)
       {struct fuel} : option (JsValue * jsstring) :=
  match fuel with
  | O => None
  | S fuel' =>
      match read_value fuel' s with
      | Some (v, rest) =>
          match skip_ws rest with
          | c :: rest' =>
              if (c =? 44)%N then read_elements fuel' rest' (v :: seen)
              else if (c =? 93)%N
              then Some (JArray (rev (v :: seen)), rest')
              else None
          | [] => None
          end
      | None => None
      end
  end
with read_members (fuel : nat) (s : jsstring)
       (seen : list (jsstring * JsValue)) {struct fuel}
       : option (JsValue * jsstring) :=
  match fuel with
  | O => None
  | S fuel' =>
      match skip_ws s with
      | q :: after_quote =>
          if (q =? 34)%N then
            match read_string after_quote with
            | Some (name, rest) =>
                match skip_ws rest with
                | colon :: rest' =>
                    if (colon =? 58)%N then
                      match read_value fuel' rest' with
                      | Some (v, rest'') =>
                          match skip_ws rest'' with
                          | c :: rest3 =>
                              if (c =? 44)%N
                              then read_members fuel' rest3
                                     ((name, v) :: seen)
                              else if (c =? 125)%N
                              then Some (JObject (rev ((name, v) :: seen)),
                                         rest3)
                              else None
                          | [] => None
                          end
                      | None => None
                      end
                    else None
                | [] => None
                end
            | None => None
            end
          else None
      | [] => None
      end
  end.

(** The engine's message differs from engine to engine; the name does
    not. *)
Definition syntax_error : Exception :=
  Exn "SyntaxError" (js "Unexpected token in JSON").

Definition parse (text : jsstring) : Exception + JsValue :=
  match read_value (2 * length text + 2) text with
  | Some (v, rest) =>
      match skip_ws rest with
      | [] => inr v
      | _ :: _ => inl syntax_error
      end
  | None => inl syntax_error
  end.

End Json.


(** The batch reads among some events: the [TraceIds] of each
    [BatchGetTraces], in order. *)
Definition batch_calls (evs : list Event) : list (list jsstring) :=
  flat_map (fun ev => match ev with
                      | BatchGetTraces ids => [ids]
                      | _ => []
                      end) evs.

(** The lines [fetchTraces] writes on the console. *)
Definition found_line (n : nat) : Event :=
  ConsoleLog [LStr "Found"; LNat n; LStr "traces from xray"].
Definition sent_line (n : nat) : Event :=
  ConsoleLog [LStr "Sent"; LNat n; LStr "traces to OTel"].
Definition error_line (e : Exception) : Event :=
  ConsoleError [LStr "Error fetching traces:"; LErr e].

(** What one round of [main]'s loop does, given what [fetchTraces] did. *)
Definition round_events (interval : number) (fetched : list Event)
  : list Event :=
  ConsoleLog [LStr "Polling X-Ray for traces"] :: fetched ++ [Sleep interval].

(** The datagram the program sends for a document: the bytes of header
    line, newline and document, whole, to port 2000 of the collector. *)
Definition datagram_of (cfg : Config) (document : jsstring) : Event :=
  let message := Buffer_from (header ++ [newline] ++ document) in
  UdpSend message 0 (length message) 2000 (cfg_OTEL_COLLECTOR_URL cfg).

(* ================================================================== *)
(** * Vocabulary for the properties of whole runs *)
(* ================================================================== *)

(** The events the loop of [fetchTraces] can give rise to: its three
    console lines, a batch read of one to five non-empty identifiers, and
    the datagram of a non-empty document. *)
Inductive loop_event (cfg : Config) : Event -> Prop :=
| le_found (n : nat) : loop_event cfg (found_line n)
| le_sent (n : nat) : loop_event cfg (sent_line n)
| le_no_ids : loop_event cfg (ConsoleLog [LStr "No trace IDs found"])
| le_batch (ids : list jsstring) :
    1 <= length ids <= 5 ->
    Forall (fun id => id <> []) ids ->
    loop_event cfg (BatchGetTraces ids)
| le_datagram (document : jsstring) :
    document <> [] ->
    loop_event cfg (datagram_of cfg document).



(** A UTF-16 code unit is below [2^16]. *)
Definition is_code_unit (c : code_unit) : bool := (c <? 0x10000)%N.

(** What a receiver of a datagram finds after the first newline byte. *)
Fixpoint after_first_newline (message : Buffer) : option Buffer :=
  match message with
  | [] => None
  | b :: rest =>
      if Byte.eqb b x0a then Some rest else after_first_newline rest
  end.

(* ================================================================== *)
(** * Sample inputs *)
(* ================================================================== *)

(** A JSON text written with apostrophes where the text has quotation
    marks. *)
Definition json (s : string) : jsstring :=
  map (fun c => if (c =? 39)%N then quote else c) (js s).

Module Sample.

Definition cfg : Config :=
  {| cfg_POLLING_INTERVAL := Num.of_Z 10000;
     cfg_OTEL_COLLECTOR_URL := js "otel-collector";
     cfg_FILTER_EXPRESSION := None |}.

Definition segment (document : jsstring) : Segment :=
  {| Document := Some document |}.

(** A segment document as X-Ray returns it. *)
Definition plain : jsstring :=
  json
    "{'id': '70de5b6f19ff9a0a', 'name': 'api', 'start_time': 1.478293361271E9}".
Definition inferred_true : jsstring :=
  json "{'id': '53995c3f42cd8ad8', 'name': 'remote', 'inferred': true}".
Definition inferred_false : jsstring :=
  json "{'id': '53995c3f42cd8ad8', 'inferred': false}".
Definition malformed : jsstring := json "{'id': ".

Definition trace_of (documents : list jsstring) : Trace :=
  {| Segments := Some (map segment documents) |}.

Definition summaries (ids : list jsstring) : GetTraceSummariesResult :=
  {| TraceSummaries := Some (map (fun id => {| Id := Some id |}) ids) |}.

Definition service (summary : Paginator GetTraceSummariesResult)
    (batch : list jsstring -> Paginator BatchGetTracesResult) : XRay :=
  {| paginateGetTraceSummaries := fun _ _ _ => summary;
     paginateBatchGetTraces := batch |}.

(** A batch read that answers with one page holding one trace, with the
    given segment documents, for each identifier asked for. *)
Definition one_page (documents : list jsstring) (batch : list jsstring)
  : Paginator BatchGetTracesResult :=
  Yield {| Traces := Some (map (fun _ => trace_of documents) batch) |} Done.

Definition clock : Z := 1700000000000.

(** The environment of the Helm chart's defaults: only the collector is
    named. *)
Definition env : Env :=
  {| POLLING_INTERVAL_SECONDS := None;
     OTEL_COLLECTOR_URL := Some (js "otel-collector");
     FILTER_EXPRESSION := None |}.

Definition env_without_url : Env :=
  {| POLLING_INTERVAL_SECONDS := Some (js "10");
     OTEL_COLLECTOR_URL := None;
     FILTER_EXPRESSION := None |}.

(** The constants the module ends up with when POLLING_INTERVAL_SECONDS
    is [-5], and when it is [0.0000001]: minus five thousand, and the
    Number nearest to a ten-thousandth. *)
Definition cfg_minus_five : Config :=
  {| cfg_POLLING_INTERVAL := Num.of_Z (-5000);
     cfg_OTEL_COLLECTOR_URL := js "otel-collector";
     cfg_FILTER_EXPRESSION := None |}.

Definition cfg_tenth_of_microsecond : Config :=
  {| cfg_POLLING_INTERVAL := S754_finite false 7378697629483820 (-66);
     cfg_OTEL_COLLECTOR_URL := js "otel-collector";
     cfg_FILTER_EXPRESSION := None |}.

Definition env_with_interval (seconds : string) : Env :=
  {| POLLING_INTERVAL_SECONDS := Some (js seconds);
     OTEL_COLLECTOR_URL := Some (js "otel-collector");
     FILTER_EXPRESSION := None |}.

Definition throttled : Exception :=
  Exn "ThrottledException" (js "Rate exceeded").

Definition seven : list jsstring :=
  [js "1-a"; js "1-b"; js "1-c"; js "1-d"; js "1-e"; js "1-f"; js "1-g"].

(** One page of summaries, every trace with a good segment. *)
Definition quiet_cycle : Cycle :=
  {| now := clock;
     xray := service (Yield (summaries seven) Done) (one_page [plain]) |}.

(** A trace of three segments, the document of the second cut short. *)
Definition corrupt_cycle : Cycle :=
  {| now := clock;
     xray := service (Yield (summaries [js "1-a"]) Done)
               (one_page [plain; malformed; plain]) |}.

(** A busier cycle: three summary pages, the second with seven
    identifiers; the batch read of its last two answers with two pages,
    and a trace on the second of them holds a Document cut short. *)
Definition busy_batches (batch : list jsstring)
  : Paginator BatchGetTracesResult :=
  if Nat.eqb (length batch) 2 then
    Yield {| Traces := Some [trace_of [plain]] |}
      (Yield {| Traces :=
                  Some [trace_of [plain];
                        trace_of [inferred_true; malformed; plain];
                        trace_of [plain]] |} Done)
  else one_page [plain] batch.

Definition busy_cycle : Cycle :=
  {| now := clock;
     xray := service
               (Yield (summaries [js "1-x"])
                  (Yield (summaries seven)
                     (Yield (summaries [js "1-y"]) Done)))
               busy_batches |}.


(** Documents whose [inferred] is present but not a boolean, and a
    Document that is not an object. *)
Definition inferred_text : jsstring := json "{'id': '1', 'inferred': 'false'}".
Definition inferred_null : jsstring := json "{'id': '1', 'inferred': null}".
Definition bare_number : jsstring := js "5".

(** A summary read whose second page has no [TraceSummaries] and whose
    third would fail. *)
Definition no_summaries_cycle : Cycle :=
  {| now := clock;
     xray := service
               (Yield (summaries [js "1-a"])
                  (Yield {| TraceSummaries := None |} (Fail throttled)))
               (one_page [plain]) |}.

(** The summary read fails at once. *)
Definition first_page_fails : Cycle :=
  {| now := clock;
     xray := service (Fail throttled) (one_page [plain]) |}.

(** Every batch read yields one page and fails on the next. *)
Definition batch_fails_cycle : Cycle :=
  {| now := clock;
     xray := service (Yield (summaries seven) Done)
               (fun batch =>
                  Yield {| Traces := Some [trace_of [plain]] |}
                    (Fail throttled)) |}.

(** A trace whose second segment has the Document [null]. *)
Definition null_cycle : Cycle :=
  {| now := clock;
     xray := service (Yield (summaries [js "1-a"]) Done)
               (one_page [plain; js "null"; plain]) |}.

Definition cfg_infinite : Config :=
  {| cfg_POLLING_INTERVAL := S754_infinity false;
     cfg_OTEL_COLLECTOR_URL := js "otel-collector";
     cfg_FILTER_EXPRESSION := None |}.


End Sample.

Unset Implicit Arguments.

(* ================================================================== *)
(** * Properties of [batchArray] *)
(* ================================================================== *)

Section BatchArrayFacts.
Variable A : Type.
Implicit Types (array : list A) (chunks : list (list A)).

Lemma slice_from array i size :
  slice array i (i + size) = firstn size (skipn i array).
Proof.
  unfold slice. replace (i + size - i) with size by lia. reflexivity.
Qed.

Lemma skipn_add array i size :
  skipn (i + size) array = skipn size (skipn i array).
Proof.
  revert array. induction i as [|i IH]; intros [|x array]; simpl;
    try reflexivity.
  - now destruct size.
  - apply IH.
Qed.

Lemma ceil_step n size :
  0 < size -> 0 < n -> (n + size - 1) / size = S ((n - size + size - 1) / size).
Proof.
  intros Hs Hn.
  destruct (Nat.le_gt_cases size n) as [Hle|Hlt].
  - replace (n + size - 1) with ((n - size + size - 1) + 1 * size) by lia.
    rewrite Nat.div_add by lia. lia.
  - replace (n - size) with 0 by lia. simpl.
    rewrite (Nat.div_small (size - 1)) by lia.
    symmetry. apply Nat.div_unique with (r := n - 1); lia.
Qed.

(** With more fuel than elements left, the loop from [i] ends, and its
    chunks are the rest of the array cut every [size] elements. *)
Lemma batchArray_from_spec array size :
  0 < size ->
  forall fuel i,
    length array - i < fuel ->
    exists chunks,
      batchArray_from fuel array size i = Some chunks /\
      concat chunks = skipn i array /\
      Forall (fun c => 0 < length c <= size) chunks /\
      length chunks = (length array - i + size - 1) / size.
Proof.
  intros Hsize. induction fuel as [|fuel IH]; intros i Hfuel; [lia|].
  simpl. destruct (i <? length array) eqn:Hi.
  - apply Nat.ltb_lt in Hi.
    destruct (IH (i + size)) as (chunks & -> & Hcat & Hall & Hlen); [lia|].
    eexists; split; [reflexivity|]. repeat split.
    + simpl. rewrite Hcat, slice_from, skipn_add. apply firstn_skipn.
    + constructor; [|exact Hall].
      rewrite slice_from, length_firstn, length_skipn. lia.
    + simpl. rewrite Hlen.
      rewrite (ceil_step (length array - i)) by lia.
      do 2 f_equal. lia.
  - apply Nat.ltb_ge in Hi. exists []. repeat split.
    + simpl. symmetry. apply skipn_all2. exact Hi.
    + constructor.
    + simpl. replace (length array - i) with 0 by lia.
      symmetry. apply Nat.div_small. lia.
Qed.

Lemma batchArray_spec array size :
  0 < size ->
  exists chunks,
    batchArray array size = Some chunks /\
    concat chunks = array /\
    Forall (fun c => 0 < length c <= size) chunks /\
    length chunks = (length array + size - 1) / size.
Proof.
  intros Hsize. unfold batchArray.
  destruct (batchArray_from_spec array size Hsize (S (length array)) 0)
    as (chunks & H1 & H2 & H3 & H4); [lia|].
  exists chunks. rewrite Nat.sub_0_r in H4. simpl in H2. auto.
Qed.

End BatchArrayFacts.

(* ================================================================== *)
(** * Properties of the encoder *)
(* ================================================================== *)

Lemma encode_ascii_app (a b : jsstring) :
  forallb is_ascii a = true ->
  Buffer_from (a ++ b) = Buffer_from a ++ Buffer_from b.
Proof.
  unfold Buffer_from. induction a as [|c a IH]; simpl; intros H;
    [reflexivity|].
  apply andb_true_iff in H. destruct H as [Hc Ha].
  unfold is_ascii in Hc. apply N.ltb_lt in Hc.
  assert (Hhi : Utf8.is_high_surrogate c = false).
  { unfold Utf8.is_high_surrogate. apply andb_false_iff. left.
    apply N.leb_gt. lia. }
  assert (Hlo : Utf8.is_low_surrogate c = false).
  { unfold Utf8.is_low_surrogate. apply andb_false_iff. left.
    apply N.leb_gt. lia. }
  rewrite Hhi, Hlo, IH by exact Ha. now rewrite app_assoc.
Qed.

Lemma envelope_bytes (document : jsstring) :
  Buffer_from (header ++ [newline] ++ document)
  = envelope_prefix ++ Buffer_from document.
Proof.
  rewrite app_assoc. apply encode_ascii_app. reflexivity.
Qed.

(* ================================================================== *)
(** * Properties of the effect monad *)
(* ================================================================== *)

Lemma bind_normal {A B} evs (a : A) (k : A -> M B) :
  bind (evs, Normal a) k = (evs ++ events (k a), completion (k a)).
Proof. simpl. now destruct (k a). Qed.

Lemma forEach_app {A} (xs ys : list A) (f : A -> M unit) evs :
  forEach xs f = (evs, Normal tt) ->
  forEach (xs ++ ys) f
  = (evs ++ events (forEach ys f), completion (forEach ys f)).
Proof.
  revert evs. induction xs as [|x xs IH]; simpl; intros evs H.
  - inversion H. now destruct (forEach ys f).
  - destruct (f x) as [e1 [[]|err|]]; simpl in *; try discriminate.
    destruct (forEach xs f) as [e2 c2] eqn:Hxs.
    inversion H; subst. rewrite (IH e2 eq_refl). simpl.
    now rewrite app_assoc.
Qed.

(** A throw in the callback ends [forEach]: the elements after it are
    left alone. *)
Lemma forEach_throw {A} (xs ys : list A) (y : A) (f : A -> M unit)
      evs evs' e :
  forEach xs f = (evs, Normal tt) ->
  f y = (evs', Throw e) ->
  forEach (xs ++ y :: ys) f = (evs ++ evs', Throw e).
Proof.
  intros Hxs Hy. rewrite (forEach_app xs (y :: ys) f evs Hxs). simpl.
  rewrite Hy. simpl. reflexivity.
Qed.

(** The empty text is not JSON. *)
Lemma Json_parse_empty : Json.parse [] = inl Json.syntax_error.
Proof. reflexivity. Qed.

(* ================================================================== *)
(** * The codec: [sendTracesToOtelUdp]'s callback *)
(* ================================================================== *)

Section Codec.
Variable JSON_parse : jsstring -> Exception + JsValue.
Variable cfg : Config.

Local Notation "'callback'" := (send_segment JSON_parse cfg).
Local Notation "'datagram'" := (datagram_of cfg).

Lemma send_segment_no_document trace :
  truthy_string (Document trace) = false ->
  callback trace = ([], Normal tt).
Proof.
  unfold send_segment. now intros ->.
Qed.

Lemma send_segment_parsed trace document value :
  Document trace = Some document -> document <> [] ->
  JSON_parse document = inr value -> value <> JNull ->
  callback trace
  = if truthy (inferred_of value) then ([], Normal tt)
    else ([datagram document], Normal tt).
Proof.
  intros Hdoc Hne Hparse Hnull.
  unfold send_segment, parse.
  rewrite Hdoc, Hparse. destruct document as [|c document]; [easy|].
  simpl truthy_string. cbv iota beta. simpl negb. cbv iota.
  assert (Hget : get_inferred value = ([], Normal (inferred_of value))).
  { destruct value; try reflexivity. now elim Hnull. }
  unfold ret. rewrite bind_normal, Hget. simpl.
  now destruct (truthy (inferred_of value)).
Qed.

Lemma send_segment_syntax_error trace document e :
  Document trace = Some document -> document <> [] ->
  JSON_parse document = inl e ->
  callback trace = ([], Throw e).
Proof.
  intros Hdoc Hne Hparse.
  unfold send_segment, parse.
  rewrite Hdoc, Hparse. destruct document as [|c document]; [easy|].
  reflexivity.
Qed.

Lemma send_segment_null trace document :
  Document trace = Some document -> document <> [] ->
  JSON_parse document = inr JNull ->
  callback trace = ([], Throw null_read_error).
Proof.
  intros Hdoc Hne Hparse.
  unfold send_segment, parse.
  rewrite Hdoc, Hparse. destruct document as [|c document]; [easy|].
  reflexivity.
Qed.

(** Whatever the segment, the callback sends nothing or one datagram,
    the one of the segment's document. *)
Lemma send_segment_cases trace :
  events (callback trace) = [] \/
  exists document,
    Document trace = Some document /\
    callback trace = ([datagram document], Normal tt).
Proof.
  destruct (truthy_string (Document trace)) eqn:Ht.
  - destruct trace as [[document|]]; [|discriminate]. simpl in Ht.
    assert (Hne : document <> []) by (now destruct document).
    destruct (JSON_parse document) as [e|value] eqn:Hparse.
    + left. now rewrite (send_segment_syntax_error _ document e).
    + destruct value eqn:Hv;
        try (rewrite (send_segment_parsed _ document value);
             subst; try easy;
             destruct (truthy (inferred_of _));
             [now left | right; now exists document]).
      left. now rewrite (send_segment_null _ document).
  - left. now rewrite send_segment_no_document.
Qed.

(** C1 (amended).  A segment whose Document is a non-empty string that
    [JSON.parse] turns into a value other than [null], with the
    [inferred] property absent or [false], makes the callback send
    exactly one datagram and end normally.  The message is the UTF-8
    encoding of header line, newline and Document, which is the 33
    fixed bytes of the header line and newline followed by the encoding
    of the Document itself; it is sent whole (offset 0, its full
    length) to port 2000 of the collector. *)
Theorem forwardable_segment_envelope trace document value :
  Document trace = Some document ->
  document <> [] ->
  JSON_parse document = inr value ->
  value <> JNull ->
  inferred_of value = None \/ inferred_of value = Some (JBool false) ->
  exists message,
    callback trace
    = ([UdpSend message 0 (length message) 2000
          (cfg_OTEL_COLLECTOR_URL cfg)], Normal tt) /\
    message = Buffer_from (header ++ [newline] ++ document) /\
    message = envelope_prefix ++ Buffer_from document.
Proof.
  intros Hdoc Hne Hparse Hnull Hinf.
  exists (Buffer_from (header ++ [newline] ++ document)).
  split; [|split; [reflexivity|apply envelope_bytes]].
  rewrite (send_segment_parsed trace document value) by assumption.
  destruct Hinf as [-> | ->]; reflexivity.
Qed.

(** C2.  A segment with no Document (the property is undefined, or it
    is the empty string), and a segment whose parsed Document has a
    truthy [inferred], make the callback end normally without sending
    anything. *)
Theorem unforwardable_segment_silent trace :
  (Document trace = None \/ Document trace = Some [] \/
   exists document value,
     Document trace = Some document /\
     JSON_parse document = inr value /\
     truthy (inferred_of value) = true) ->
  callback trace = ([], Normal tt).
Proof.
  intros [H | [H | (document & value & Hdoc & Hparse & Hinf)]].
  - apply send_segment_no_document. now rewrite H.
  - apply send_segment_no_document. now rewrite H.
  - destruct document as [|c document].
    + apply send_segment_no_document. now rewrite Hdoc.
    + rewrite (send_segment_parsed trace (c :: document) value);
        try easy.
      * now rewrite Hinf.
      * intros ->. discriminate.
Qed.

(** C9.  The callback run twice on one segment, as [forEach] runs it on
    a trace that lists the segment twice, does the second time what it
    did the first: each run sends nothing or the one datagram of the
    segment's Document, and the two runs send the same.  What it does is
    settled by the Document alone: segments with the same Document get
    the same treatment, byte for byte. *)
Theorem codec_repeatable trace :
  let once := events (callback trace) in
  (once = [] \/
   exists document,
     Document trace = Some document /\ once = [datagram document]) /\
  events (sendTracesToOtelUdp JSON_parse cfg
            {| Segments := Some [trace; trace] |})
  = once ++ once /\
  forall trace',
    Document trace' = Document trace -> callback trace' = callback trace.
Proof.
  simpl. split; [|split].
  - destruct (send_segment_cases trace) as [H | (document & Hdoc & H)].
    + now left.
    + right. exists document. now rewrite H.
  - unfold sendTracesToOtelUdp. simpl.
    destruct (callback trace) as [evs [[]| e |]] eqn:Hrun; simpl.
    + now rewrite app_nil_r.
    + destruct (send_segment_cases trace) as [H | (document & _ & H)].
      * rewrite Hrun in H. simpl in H. now subst.
      * rewrite Hrun in H. discriminate.
    + destruct (send_segment_cases trace) as [H | (document & _ & H)].
      * rewrite Hrun in H. simpl in H. now subst.
      * rewrite Hrun in H. discriminate.
  - intros trace' H. unfold send_segment. now rewrite H.
Qed.

End Codec.

Lemma forwardable_segment_envelope_witness :
  exists message,
    send_segment Json.parse Sample.cfg (Sample.segment Sample.plain)
    = ([UdpSend message 0 (length message) 2000 (js "otel-collector")],
       Normal tt) /\
    message = Buffer_from (header ++ [newline] ++ Sample.plain) /\
    message = envelope_prefix ++ Buffer_from Sample.plain.
Proof.
  refine (forwardable_segment_envelope Json.parse Sample.cfg
            (Sample.segment Sample.plain) Sample.plain
            (JObject [(js "id", JString (js "70de5b6f19ff9a0a"));
                      (js "name", JString (js "api"));
                      (js "start_time",
                       JNumber (S754_finite false 6200411758352400 (-22)))])
            _ _ _ _ _).
  - reflexivity.
  - discriminate.
  - vm_compute. reflexivity.
  - discriminate.
  - left. reflexivity.
Defined.

(** C1 as the specification words it fails on the Document [null]: the
    text parses as JSON, the value has no [inferred] property, and the
    callback throws a TypeError instead of sending an envelope. *)
Lemma null_document_sends_nothing :
  Json.parse (js "null") = inr JNull /\
  inferred_of JNull = None /\
  send_segment Json.parse Sample.cfg (Sample.segment (js "null"))
  = ([], Throw null_read_error).
Proof. vm_compute. repeat split. Qed.

(** A Document that says [inferred: false] is forwarded as it is. *)
Lemma inferred_false_is_forwarded :
  send_segment Json.parse Sample.cfg (Sample.segment Sample.inferred_false)
  = ([datagram_of Sample.cfg Sample.inferred_false], Normal tt).
Proof. vm_compute. reflexivity. Qed.

Lemma codec_repeatable_witness :
  events (sendTracesToOtelUdp Json.parse Sample.cfg
            {| Segments := Some [Sample.segment Sample.plain;
                                 Sample.segment Sample.plain] |})
  = [datagram_of Sample.cfg Sample.plain; datagram_of Sample.cfg Sample.plain].
Proof.
  destruct (codec_repeatable Json.parse Sample.cfg
              (Sample.segment Sample.plain)) as (_ & Htwice & _).
  rewrite Htwice. vm_compute. reflexivity.
Defined.

Lemma unforwardable_segment_silent_witness :
  send_segment Json.parse Sample.cfg (Sample.segment Sample.inferred_true)
  = ([], Normal tt).
Proof.
  apply unforwardable_segment_silent. right. right.
  exists Sample.inferred_true.
  exists (JObject [(js "id", JString (js "53995c3f42cd8ad8"));
                   (js "name", JString (js "remote"));
                   (js "inferred", JBool true)]).
  repeat split; vm_compute; reflexivity.
Defined.

(* ================================================================== *)
(** * Events and completions of composed code *)
(* ================================================================== *)

Lemma events_bind {A B} (m : M A) (k : A -> M B) :
  events (bind m k)
  = events m ++ match completion m with
                | Normal a => events (k a)
                | _ => []
                end.
Proof.
  destruct m as [evs [a|e|]]; simpl; try now rewrite app_nil_r.
  now destruct (k a).
Qed.

Lemma completion_bind {A B} (m : M A) (k : A -> M B) :
  completion (bind m k)
  = match completion m with
    | Normal a => completion (k a)
    | Throw e => Throw e
    | Diverge => Diverge
    end.
Proof.
  destruct m as [evs [a|e|]]; simpl; try reflexivity. now destruct (k a).
Qed.

Lemma M_eta {A} (m : M A) : m = (events m, completion m).
Proof. now destruct m. Qed.

Lemma batch_calls_app evs evs' :
  batch_calls (evs ++ evs') = batch_calls evs ++ batch_calls evs'.
Proof. apply flat_map_app. Qed.

Lemma forEach_terminates {A} (xs : list A) (f : A -> M unit) :
  (forall x, completion (f x) <> Diverge) ->
  completion (forEach xs f) <> Diverge.
Proof.
  intros Hf. induction xs as [|x xs IH]; simpl; [discriminate|].
  rewrite completion_bind. specialize (Hf x).
  destruct (completion (f x)); [exact IH|discriminate|contradiction].
Qed.

Lemma forEach_no_calls {A} (xs : list A) (f : A -> M unit) :
  (forall x, batch_calls (events (f x)) = []) ->
  batch_calls (events (forEach xs f)) = [].
Proof.
  intros Hf. induction xs as [|x xs IH]; simpl; [reflexivity|].
  rewrite events_bind, batch_calls_app, Hf. simpl.
  destruct (completion (f x)); [exact IH|reflexivity|reflexivity].
Qed.

(** When every run of the callback makes exactly the call [g x], the
    calls of [forEach] are those of the elements it reached: all of them
    when it ends normally. *)
Lemma forEach_calls {A} (xs : list A) (f : A -> M unit)
      (g : A -> list jsstring) :
  (forall x, batch_calls (events (f x)) = [g x]) ->
  (exists k, batch_calls (events (forEach xs f)) = firstn k (map g xs)) /\
  (completion (forEach xs f) = Normal tt ->
   batch_calls (events (forEach xs f)) = map g xs).
Proof.
  intros Hf. induction xs as [|x xs [[k IHk] IHn]]; simpl.
  - split; [exists 0|]; reflexivity.
  - rewrite events_bind, completion_bind, batch_calls_app, Hf.
    destruct (completion (f x)) as [[]|e|]; simpl.
    + split.
      * exists (S k). simpl. now rewrite IHk.
      * intros H. now rewrite IHn.
    + split; [exists 1; reflexivity | discriminate].
    + split; [exists 1; reflexivity | discriminate].
Qed.

(* ================================================================== *)
(** * One poll cycle: [fetchTraces] *)
(* ================================================================== *)

Section CycleFacts.
Variable JSON_parse : jsstring -> Exception + JsValue.
Variable cfg : Config.

Local Notation "'callback'" := (send_segment JSON_parse cfg).
Local Notation "'send_traces'" := (sendTracesToOtelUdp JSON_parse cfg).
Local Notation "'read_traces'" := (for_await_traces JSON_parse cfg).
Local Notation "'read_summaries'" := (for_await_summaries JSON_parse cfg).
Local Notation "'body'" := (page_body JSON_parse cfg).

Lemma send_segment_terminates trace : completion (callback trace) <> Diverge.
Proof.
  destruct (truthy_string (Document trace)) eqn:Ht.
  - unfold send_segment. rewrite Ht. simpl.
    destruct (Document trace) as [document|]; [|discriminate].
    unfold parse. destruct (JSON_parse document) as [e|value];
      [discriminate|].
    unfold ret. rewrite bind_normal. simpl.
    destruct value; simpl; try discriminate;
      match goal with |- context [truthy ?v] => destruct (truthy v) end;
      discriminate.
  - rewrite send_segment_no_document by exact Ht. discriminate.
Qed.

Lemma send_segment_no_calls trace :
  batch_calls (events (callback trace)) = [].
Proof.
  destruct (send_segment_cases JSON_parse cfg trace)
    as [H | (document & _ & H)]; rewrite H; reflexivity.
Qed.

Lemma sendTraces_terminates traceData :
  completion (send_traces traceData) <> Diverge.
Proof.
  unfold sendTracesToOtelUdp. destruct (Segments traceData); simpl.
  - apply forEach_terminates, send_segment_terminates.
  - discriminate.
Qed.

Lemma sendTraces_no_calls traceData :
  batch_calls (events (send_traces traceData)) = [].
Proof.
  unfold sendTracesToOtelUdp. destruct (Segments traceData); simpl.
  - apply forEach_no_calls, send_segment_no_calls.
  - reflexivity.
Qed.

Lemma for_await_traces_terminates pages :
  completion (read_traces pages) <> Diverge.
Proof.
  induction pages as [|page next IH|e]; simpl; try discriminate.
  rewrite completion_bind.
  assert (H : completion (forEach_opt (Traces page) send_traces) <> Diverge).
  { destruct (Traces page); simpl; [|discriminate].
    apply forEach_terminates, sendTraces_terminates. }
  destruct (completion (forEach_opt (Traces page) send_traces));
    [exact IH | discriminate | contradiction].
Qed.

Lemma for_await_traces_no_calls pages :
  batch_calls (events (read_traces pages)) = [].
Proof.
  induction pages as [|page next IH|e]; simpl; try reflexivity.
  rewrite events_bind, batch_calls_app.
  assert (H : batch_calls (events (forEach_opt (Traces page) send_traces))
              = []).
  { destruct (Traces page); simpl; [|reflexivity].
    apply forEach_no_calls, sendTraces_no_calls. }
  rewrite H. simpl.
  destruct (completion (forEach_opt (Traces page) send_traces));
    [exact IH | reflexivity | reflexivity].
Qed.

Local Notation "'fetch'" := (fetch_batch JSON_parse cfg).

Lemma fetch_batch_terminates service batch :
  completion (fetch service batch) <> Diverge.
Proof.
  unfold fetch_batch. rewrite completion_bind. simpl.
  apply for_await_traces_terminates.
Qed.

Lemma fetch_batch_calls service batch :
  batch_calls (events (fetch service batch)) = [batch].
Proof.
  unfold fetch_batch. rewrite events_bind, batch_calls_app. simpl.
  now rewrite for_await_traces_no_calls.
Qed.

(** The body of the outer loop, with the chunks of its identifiers. *)
Lemma page_body_chunks service traceIds :
  exists chunks,
    batchArray traceIds 5 = Some chunks /\
    length chunks = (length traceIds + 4) / 5 /\
    Forall (fun c => 1 <= length c <= 5) chunks /\
    concat chunks = traceIds /\
    body service traceIds
    = (found_line (length traceIds)
         :: events (forEach chunks (fetch service))
         ++ match completion (forEach chunks (fetch service)) with
            | Normal _ => [sent_line (length traceIds)]
            | _ => []
            end,
       completion (forEach chunks (fetch service))).
Proof.
  destruct (batchArray_spec _ traceIds 5) as (chunks & Hb & Hcat & Hall & Hlen);
    [lia|].
  exists chunks. repeat split; try assumption.
  - rewrite Hlen. f_equal. lia.
  - unfold page_body. rewrite Hb.
    rewrite (M_eta (forEach chunks (fetch service))). simpl.
    destruct (completion (forEach chunks (fetch service))) as [[]|e|];
      rewrite ?app_nil_r; reflexivity.
Qed.

Lemma page_body_terminates service traceIds :
  completion (body service traceIds) <> Diverge.
Proof.
  destruct (page_body_chunks service traceIds) as (chunks & _ & _ & _ & _ & ->).
  simpl. apply forEach_terminates. intros batch.
  apply fetch_batch_terminates.
Qed.

Lemma for_await_summaries_terminates service pages :
  completion (read_summaries service pages) <> Diverge.
Proof.
  induction pages as [|page next IH|e]; simpl; try discriminate.
  destruct (trace_ids page) as [traceIds|]; [|discriminate].
  rewrite completion_bind.
  pose proof (page_body_terminates service traceIds) as H.
  destruct (completion (body service traceIds));
    [exact IH | discriminate | contradiction].
Qed.

(** What [fetchTraces] makes of its loop: a throw becomes one more line
    on the console, and the function returns. *)
Lemma fetchTraces_of_loop c :
  let loop := read_summaries (xray c)
                (paginateGetTraceSummaries (xray c) (StartTime cfg c)
                   (EndTime c) (cfg_FILTER_EXPRESSION cfg)) in
  fetchTraces JSON_parse cfg c
  = match completion loop with
    | Throw e => (events loop ++ [error_line e], Normal tt)
    | _ => (events loop, Normal tt)
    end.
Proof.
  simpl. unfold fetchTraces.
  match goal with |- try_catch ?m _ = _ =>
    pose proof (for_await_summaries_terminates (xray c)
                  (paginateGetTraceSummaries (xray c) (StartTime cfg c)
                     (EndTime c) (cfg_FILTER_EXPRESSION cfg))) as Hterm;
    destruct m as [evs [[]|e|]] eqn:Hm
  end; simpl in *; try reflexivity.
  contradiction.
Qed.

Lemma fetchTraces_returns c :
  completion (fetchTraces JSON_parse cfg c) = Normal tt.
Proof.
  rewrite fetchTraces_of_loop. cbv zeta.
  destruct (completion (read_summaries _ _)); reflexivity.
Qed.

Lemma page_body_calls service traceIds chunks :
  batchArray traceIds 5 = Some chunks ->
  (exists k, batch_calls (events (body service traceIds)) = firstn k chunks) /\
  (completion (body service traceIds) = Normal tt ->
   batch_calls (events (body service traceIds)) = chunks).
Proof.
  intros Hb.
  destruct (page_body_chunks service traceIds)
    as (chunks' & Hb' & _ & _ & _ & Hbody).
  rewrite Hb in Hb'. inversion Hb'; subst chunks'. rewrite Hbody. simpl.
  destruct (forEach_calls chunks (fetch service) (fun batch => batch)
              (fetch_batch_calls service)) as [[k Hk] Hn].
  rewrite map_id in Hk, Hn. rewrite batch_calls_app.
  assert (Htail : batch_calls
            match completion (forEach chunks (fetch service)) with
            | Normal _ => [sent_line (length traceIds)]
            | _ => []
            end = []) by (now destruct (completion _)).
  rewrite Htail, app_nil_r. split; [now exists k | exact Hn].
Qed.

(** C3.  The identifiers of a summary page are cut into [ceil(N/5)]
    chunks of at least 1 and at most 5, which put end to end are the
    identifiers as the page gave them; and the batch reads the loop body
    issues are these chunks, one read each, in order: the first few of
    them when a read or a segment throws, all of them when the body ends
    normally. *)
Theorem batch_chunking (traceIds : list jsstring) :
  exists chunks,
    batchArray traceIds 5 = Some chunks /\
    length chunks = (length traceIds + 4) / 5 /\
    Forall (fun c => 1 <= length c <= 5) chunks /\
    concat chunks = traceIds /\
    forall service,
      (exists k,
         batch_calls (events (body service traceIds)) = firstn k chunks) /\
      (completion (body service traceIds) = Normal tt ->
       batch_calls (events (body service traceIds)) = chunks).
Proof.
  destruct (page_body_chunks (Build_XRay (fun _ _ _ => Done) (fun _ => Done))
              traceIds) as (chunks & Hb & Hlen & Hall & Hcat & _).
  exists chunks. repeat split; try assumption;
    now apply page_body_calls.
Qed.

(** Pages worked through without an exception are followed by the rest
    of the read. *)
Lemma for_await_traces_then before rest evs :
  read_traces (pages_then before Done) = (evs, Normal tt) ->
  read_traces (pages_then before rest)
  = (evs ++ events (read_traces rest), completion (read_traces rest)).
Proof.
  revert evs. induction before as [|page before IH]; simpl; intros evs H.
  - inversion H. simpl. apply M_eta.
  - destruct (forEach_opt (Traces page) send_traces) as [e1 [[]|err|]];
      simpl in *; try discriminate.
    destruct (read_traces (pages_then before Done)) as [e2 c2] eqn:Hb.
    inversion H; subst. rewrite (IH e2 eq_refl). simpl.
    now rewrite app_assoc.
Qed.

Lemma for_await_summaries_then service before rest evs :
  Forall (fun page => trace_ids page <> None) before ->
  read_summaries service (pages_then before Done) = (evs, Normal tt) ->
  read_summaries service (pages_then before rest)
  = (evs ++ events (read_summaries service rest),
     completion (read_summaries service rest)).
Proof.
  intros Hids. revert evs.
  induction Hids as [|page before Hpage _ IH]; simpl; intros evs H.
  - inversion H. simpl. apply M_eta.
  - destruct (trace_ids page) as [traceIds|]; [|contradiction].
    destruct (body service traceIds) as [e1 [[]|err|]];
      simpl in *; try discriminate.
    destruct (read_summaries service (pages_then before Done))
      as [e2 c2] eqn:Hb.
    inversion H; subst. rewrite (IH e2 eq_refl). simpl.
    now rewrite app_assoc.
Qed.

(** C4 (amended).  A segment whose Document [JSON.parse] rejects ends the
    cycle, wherever it is met: on any summary page, in any batch of the
    page, on any page of the batch read, in any trace of that page, at
    any place among the segments of the trace, as long as what comes
    before it is worked through without an exception (otherwise it is
    not met at all).  What was sent before it stays sent; the SyntaxError
    is logged by the [catch] of [fetchTraces], which returns normally;
    and nothing else happens: the segments and traces after it, the later
    pages, the later batches and the later summary pages are left
    alone. *)
Theorem parse_failure_ends_cycle c
    pages_before page next traceIds
    batches_before batch batches_after
    trace_pages_before traces_before segments_before bad segments_after
    traces_after more_pages document e
    evs_pages evs_batches evs_trace_pages evs_traces evs_segments :
  paginateGetTraceSummaries (xray c) (StartTime cfg c) (EndTime c)
    (cfg_FILTER_EXPRESSION cfg)
  = pages_then pages_before (Yield page next) ->
  Forall (fun page => trace_ids page <> None) pages_before ->
  read_summaries (xray c) (pages_then pages_before Done)
  = (evs_pages, Normal tt) ->
  trace_ids page = Some traceIds ->
  batchArray traceIds 5 = Some (batches_before ++ batch :: batches_after) ->
  forEach batches_before (fetch (xray c)) = (evs_batches, Normal tt) ->
  paginateBatchGetTraces (xray c) batch
  = pages_then trace_pages_before
      (Yield {| Traces :=
                  Some (traces_before
                        ++ {| Segments :=
                                Some (segments_before
                                      ++ bad :: segments_after) |}
                        :: traces_after) |} more_pages) ->
  read_traces (pages_then trace_pages_before Done)
  = (evs_trace_pages, Normal tt) ->
  forEach traces_before send_traces = (evs_traces, Normal tt) ->
  forEach segments_before callback = (evs_segments, Normal tt) ->
  Document bad = Some document ->
  document <> [] ->
  JSON_parse document = inl e ->
  fetchTraces JSON_parse cfg c
  = (evs_pages
       ++ found_line (length traceIds) :: evs_batches
       ++ BatchGetTraces batch :: evs_trace_pages
       ++ evs_traces ++ evs_segments ++ [error_line e],
     Normal tt).
Proof.
  intros Hpages Hids Hbefore Hpage Hb Hbatches Hbatch Htpages Htraces Hsegs
         Hdoc Hne Hparse.
  pose proof (send_segment_syntax_error JSON_parse cfg bad document e
                Hdoc Hne Hparse) as Hbad.
  pose proof (forEach_throw segments_before segments_after bad callback
                evs_segments [] e Hsegs Hbad) as Htrace.
  rewrite app_nil_r in Htrace.
  pose proof (forEach_throw traces_before traces_after
                {| Segments := Some (segments_before ++ bad :: segments_after) |}
                send_traces evs_traces evs_segments e Htraces Htrace)
    as Htpage.
  assert (Hread : fetch (xray c) batch
                  = (BatchGetTraces batch :: evs_trace_pages
                       ++ evs_traces ++ evs_segments, Throw e)).
  { unfold fetch_batch. rewrite Hbatch.
    rewrite (for_await_traces_then _ _ _ Htpages). simpl.
    rewrite Htpage. reflexivity. }
  pose proof (forEach_throw batches_before batches_after batch
                (fetch (xray c)) evs_batches _ e Hbatches Hread) as Hloop.
  assert (Hbody : body (xray c) traceIds
                  = (found_line (length traceIds) :: evs_batches
                       ++ BatchGetTraces batch :: evs_trace_pages
                       ++ evs_traces ++ evs_segments, Throw e)).
  { unfold page_body. rewrite Hb, Hloop. reflexivity. }
  unfold fetchTraces. rewrite Hpages.
  rewrite (for_await_summaries_then _ _ _ _ Hids Hbefore).
  simpl. rewrite Hpage, Hbody. simpl.
  f_equal. rewrite <- app_assoc. f_equal. simpl. f_equal.
  rewrite <- app_assoc. f_equal. simpl. f_equal.
  now rewrite <- !app_assoc.
Qed.


Lemma main_from_rounds n world k :
  main_from JSON_parse cfg n world k
  = (flat_map (fun i => round_events (cfg_POLLING_INTERVAL cfg)
                          (events (fetchTraces JSON_parse cfg (world i))))
       (seq k n),
     Normal tt).
Proof.
  revert k. induction n as [|n IH]; intros k; simpl; [reflexivity|].
  rewrite IH.
  rewrite (M_eta (fetchTraces JSON_parse cfg (world k))), fetchTraces_returns.
  simpl. unfold round_events. simpl. now rewrite <- app_assoc.
Qed.

End CycleFacts.

(* ================================================================== *)
(** * The loop and the start of the process *)
(* ================================================================== *)

Lemma start_loaded JSON_parse Number_ env cfg n world :
  load Number_ env = inr cfg ->
  start JSON_parse Number_ env n world
  = Started (main JSON_parse cfg n world).
Proof.
  intros H. unfold start. rewrite H. f_equal.
  unfold main. now rewrite main_from_rounds.
Qed.


(** C7.  Without OTEL_COLLECTOR_URL in the environment, or with an empty
    one, loading the module throws
    [Error: OTEL_COLLECTOR_URL environment variable is required] and the
    process dies before [main] is called.  With a non-empty one the
    module loads, with that host as the destination, and [main] runs. *)
Theorem collector_url_required
    (JSON_parse : jsstring -> Exception + JsValue)
    (Number_ : option jsstring -> number) (env : Env) :
  required_error
  = Exn "Error" (js "OTEL_COLLECTOR_URL environment variable is required") /\
  (OTEL_COLLECTOR_URL env = None \/ OTEL_COLLECTOR_URL env = Some [] ->
   load Number_ env = inl required_error /\
   forall n world,
     start JSON_parse Number_ env n world = Crashed required_error) /\
  (forall url,
     OTEL_COLLECTOR_URL env = Some url -> url <> [] ->
     exists cfg,
       load Number_ env = inr cfg /\
       cfg_OTEL_COLLECTOR_URL cfg = url /\
       forall n world,
         start JSON_parse Number_ env n world
         = Started (main JSON_parse cfg n world)).
Proof.
  split; [reflexivity|]. split.
  - intros H.
    assert (Hload : load Number_ env = inl required_error).
    { unfold load. destruct H as [-> | ->]; reflexivity. }
    split; [exact Hload|]. intros n world. unfold start. now rewrite Hload.
  - intros url Hurl Hne. eexists. split; [|split].
    + unfold load. rewrite Hurl. destruct url; [easy|]. reflexivity.
    + reflexivity.
    + intros n world.
      apply start_loaded.
      unfold load. rewrite Hurl. destruct url; [easy|]. reflexivity.
Qed.

(* ================================================================== *)
(** * The theorems at work on the sample inputs *)
(* ================================================================== *)

Lemma batch_chunking_witness :
  exists chunks,
    batchArray Sample.seven 5 = Some chunks /\
    length chunks = 2 /\
    Forall (fun c => 1 <= length c <= 5) chunks /\
    concat chunks = Sample.seven /\
    batch_calls
      (events (page_body Json.parse Sample.cfg (xray Sample.quiet_cycle)
                 Sample.seven)) = chunks.
Proof.
  destruct (batch_chunking Json.parse Sample.cfg Sample.seven)
    as (chunks & Hb & Hlen & Hall & Hcat & Hcalls).
  exists chunks. repeat split; try assumption.
  apply (Hcalls (xray Sample.quiet_cycle)).
  vm_compute. reflexivity.
Defined.

Lemma parse_failure_ends_cycle_witness :
  let sent := datagram_of Sample.cfg Sample.plain in
  fetchTraces Json.parse Sample.cfg Sample.busy_cycle
  = ([found_line 1; BatchGetTraces [js "1-x"]; sent; sent_line 1]
       ++ found_line 7
       :: [BatchGetTraces [js "1-a"; js "1-b"; js "1-c"; js "1-d"; js "1-e"];
           sent; sent; sent; sent; sent]
       ++ BatchGetTraces [js "1-f"; js "1-g"] :: [sent]
       ++ [sent] ++ [] ++ [error_line Json.syntax_error],
     Normal tt).
Proof.
  refine (parse_failure_ends_cycle Json.parse Sample.cfg
            Sample.busy_cycle
            [Sample.summaries [js "1-x"]] (Sample.summaries Sample.seven)
            (Yield (Sample.summaries [js "1-y"]) Done) Sample.seven
            [[js "1-a"; js "1-b"; js "1-c"; js "1-d"; js "1-e"]]
            [js "1-f"; js "1-g"] []
            [ {| Traces := Some [Sample.trace_of [Sample.plain]] |} ]
            [Sample.trace_of [Sample.plain]]
            [Sample.segment Sample.inferred_true]
            (Sample.segment Sample.malformed)
            [Sample.segment Sample.plain]
            [Sample.trace_of [Sample.plain]] Done
            Sample.malformed Json.syntax_error
            _ _ _ _ _
            _ _ _ _ _ _ _ _ _ _ _ _ _).
  - reflexivity.
  - repeat constructor. discriminate.
  - vm_compute. reflexivity.
  - reflexivity.
  - reflexivity.
  - vm_compute. reflexivity.
  - reflexivity.
  - vm_compute. reflexivity.
  - vm_compute. reflexivity.
  - vm_compute. reflexivity.
  - reflexivity.
  - discriminate.
  - vm_compute. reflexivity.
Defined.

(** C4 as the specification words it fails on a trace of three segments
    whose second Document is cut short: the third segment, whose Document
    is sound and would be forwarded on its own, is never sent; the cycle
    ends at the second. *)
Lemma corrupt_segment_blocks_later_segments :
  Json.parse Sample.malformed = inl Json.syntax_error /\
  send_segment Json.parse Sample.cfg (Sample.segment Sample.plain)
  = ([datagram_of Sample.cfg Sample.plain], Normal tt) /\
  paginateBatchGetTraces (xray Sample.corrupt_cycle) [js "1-a"]
  = Yield {| Traces :=
               Some [ {| Segments :=
                           Some [Sample.segment Sample.plain;
                                 Sample.segment Sample.malformed;
                                 Sample.segment Sample.plain] |} ] |} Done /\
  fetchTraces Json.parse Sample.cfg Sample.corrupt_cycle
  = ([found_line 1; BatchGetTraces [js "1-a"];
      datagram_of Sample.cfg Sample.plain;
      error_line Json.syntax_error],
     Normal tt).
Proof. vm_compute. repeat split. Qed.




Lemma collector_url_required_witness :
  start Json.parse Ecma.Number_ Sample.env_without_url 1
    (fun _ => Sample.quiet_cycle) = Crashed required_error /\
  exists cfg,
    load Ecma.Number_ Sample.env = inr cfg /\
    cfg_OTEL_COLLECTOR_URL cfg = js "otel-collector" /\
    start Json.parse Ecma.Number_ Sample.env 1 (fun _ => Sample.quiet_cycle)
    = Started (main Json.parse cfg 1 (fun _ => Sample.quiet_cycle)).
Proof.
  split.
  - apply (collector_url_required Json.parse Ecma.Number_
             Sample.env_without_url).
    left. reflexivity.
  - destruct (collector_url_required Json.parse Ecma.Number_ Sample.env)
      as (_ & _ & H).
    destruct (H (js "otel-collector")) as (cfg & H1 & H2 & H3).
    + reflexivity.
    + discriminate.
    + exists cfg. repeat split; auto.
Defined.

(* ================================================================== *)
(** * Number arithmetic on whole numbers *)
(* ================================================================== *)

(** Integers of magnitude below [2^53] are Numbers, and their products
    and differences, while they stay below [2^53], are computed without
    rounding. *)
Module NumFacts.
Local Open Scope Z_scope.

Lemma iter_pos_iter {A} (f : A -> A) p x : iter_pos f p x = Pos.iter f x p.
Proof.
  revert x. induction p as [p IH|p IH|]; intros x; simpl.
  - rewrite !IH. now rewrite <- !Pos.iter_swap.
  - now rewrite !IH.
  - reflexivity.
Qed.

Lemma Zpos_iter_xO m n : Zpos (Pos.iter xO m n) = Zpos m * 2 ^ Zpos n.
Proof.
  rewrite <- Z.shiftl_mul_pow2 by lia. simpl.
  apply (Pos.iter_swap_gen _ _ Zpos xO (Z.mul 2)). reflexivity.
Qed.

Lemma digits2_log2 m : Zpos (digits2_pos m) = Z.log2 (Zpos m) + 1.
Proof.
  induction m as [m IH|m IH|]; simpl digits2_pos; try reflexivity.
  - rewrite Pos2Z.inj_succ, IH. 
    change (Zpos m~1) with (2 * Zpos m + 1).
    rewrite Z.log2_succ_double by lia. lia.
  - rewrite Pos2Z.inj_succ, IH.
    change (Zpos m~0) with (2 * Zpos m). rewrite Z.log2_double by lia. lia.
Qed.

Lemma shr_exact_iter n : forall m q,
  Zpos m = Zpos q * 2 ^ Zpos n ->
  Pos.iter shr_1 (Build_shr_record (Zpos m) false false) n
  = Build_shr_record (Zpos q) false false.
Proof.
  induction n as [|n IH] using Pos.peano_ind; intros m q H.
  - simpl. destruct m as [m|m|]; try lia. f_equal. lia.
  - rewrite Pos.iter_succ.
    rewrite (IH m (xO q)).
    + reflexivity.
    + rewrite H, Pos2Z.inj_succ, Z.pow_succ_r by lia. lia.
Qed.

Lemma shr_exact n m q :
  Zpos m = Zpos q * 2 ^ Zpos n ->
  iter_pos shr_1 n (Build_shr_record (Zpos m) false false)
  = Build_shr_record (Zpos q) false false.
Proof. rewrite iter_pos_iter. apply shr_exact_iter. Qed.

Lemma Zdigits2_log2 m : Zdigits2 (Zpos m) = Z.log2 (Zpos m) + 1.
Proof. apply digits2_log2. Qed.

Lemma fexp_normal e : -1021 <= e -> fexp Num.prec Num.emax e = e - 53.
Proof. unfold fexp, emin, Num.prec, Num.emax. lia. Qed.

(** Shifting right to the canonical exponent loses nothing when the bits
    shifted out are zeros. *)
Lemma shr_fexp_exact m E Q e0 :
  Zpos m = Zpos Q * 2 ^ (e0 - E) ->
  Z.log2 (Zpos Q) = 52 ->
  E <= e0 -> -1074 <= e0 ->
  shr_fexp Num.prec Num.emax (Zpos m) E loc_Exact
  = (Build_shr_record (Zpos Q) false false, e0).
Proof.
  intros Hm HQ HE He0.
  assert (Hd : Zdigits2 (Zpos m) = e0 - E + 53).
  { rewrite Zdigits2_log2, Hm, Z.log2_mul_pow2, HQ by lia. lia. }
  unfold shr_fexp. rewrite Hd, fexp_normal by lia.
  replace (e0 - E + 53 + E - 53 - E) with (e0 - E) by lia.
  simpl shr_record_of_loc. unfold shr.
  destruct (e0 - E) as [|n|n] eqn:Hn; try lia.
  - rewrite Z.pow_0_r, Z.mul_1_r in Hm. rewrite Hm. f_equal. lia.
  - rewrite (shr_exact n m Q Hm). f_equal. lia.
Qed.

Lemma binary_round_aux_exact s m E Q e0 :
  Zpos m = Zpos Q * 2 ^ (e0 - E) ->
  Z.log2 (Zpos Q) = 52 ->
  E <= e0 -> -1074 <= e0 <= 971 ->
  binary_round_aux Num.prec Num.emax s (Zpos m) E loc_Exact
  = S754_finite s Q e0.
Proof.
  intros Hm HQ HE He0. unfold binary_round_aux.
  rewrite (shr_fexp_exact m E Q e0) by (assumption || lia).
  simpl shr_m. simpl loc_of_shr_record. simpl round_nearest_even.
  rewrite (shr_fexp_exact Q e0 Q e0); try assumption; try lia.
  - simpl shr_m. unfold Num.emax, Num.prec.
    destruct (Z.leb_spec e0 (1024 - 53)); [reflexivity|lia].
  - rewrite Z.sub_diag. lia.
Qed.

Lemma binary_round_exact s m E q :
  Zpos m = Zpos q * 2 ^ (- E) -> E <= 0 -> Zpos q < 2 ^ 53 ->
  binary_round Num.prec Num.emax s m E
  = S754_finite s (Z.to_pos (Zpos q * 2 ^ (52 - Z.log2 (Zpos q))))
      (Z.log2 (Zpos q) - 52).
Proof.
  intros Hm HE Hq.
  assert (Hl0 : 0 <= Z.log2 (Zpos q)) by apply Z.log2_nonneg.
  assert (Hl : Z.log2 (Zpos q) < 53) by (apply Z.log2_lt_pow2; lia).
  set (l := Z.log2 (Zpos q)) in *.
  assert (HQpos : 0 < Zpos q * 2 ^ (52 - l))
    by (apply Z.mul_pos_pos; [lia|apply Z.pow_pos_nonneg; lia]).
  set (Q := Z.to_pos (Zpos q * 2 ^ (52 - l))).
  assert (HQ : Zpos Q = Zpos q * 2 ^ (52 - l))
    by (unfold Q; rewrite Z2Pos.id; lia).
  assert (HlQ : Z.log2 (Zpos Q) = 52).
  { rewrite HQ, Z.log2_mul_pow2 by lia. fold l. lia. }
  assert (Hd : Zpos (digits2_pos m) = l + 1 - E).
  { rewrite digits2_log2, Hm, Z.log2_mul_pow2 by lia. fold l. lia. }
  unfold binary_round. rewrite Hd, fexp_normal by lia.
  replace (l + 1 - E + E - 53) with (l - 52) by lia.
  unfold shl_align.
  destruct (l - 52 - E) as [|n|n] eqn:Hn.
  - apply binary_round_aux_exact; try assumption; try lia.
    rewrite HQ, Hm, <- Z.mul_assoc, <- Z.pow_add_r by lia.
    do 2 f_equal. lia.
  - apply binary_round_aux_exact; try assumption; try lia.
    rewrite HQ, Hm, <- Z.mul_assoc, <- Z.pow_add_r by lia.
    do 2 f_equal. lia.
  - apply binary_round_aux_exact; try assumption; try lia.
    rewrite Z.sub_diag, Z.mul_1_r, HQ, Zpos_iter_xO, Hm, <- Z.mul_assoc,
      <- Z.pow_add_r by lia.
    do 2 f_equal. lia.
Qed.

(** Normalising [z * 2^(-E)] at exponent [E] gives the canonical form of
    the integer [z]. *)
Lemma binary_normalize_exact M E z :
  M = z * 2 ^ (- E) -> E <= 0 -> z <> 0 -> Z.abs z < 2 ^ 53 ->
  binary_normalize Num.prec Num.emax M E false = Num.canon z.
Proof.
  intros HM HE Hz Hlt. unfold Num.canon.
  assert (Hp : 0 < 2 ^ (- E)) by (apply Z.pow_pos_nonneg; lia).
  destruct z as [|q|q]; [easy| |].
  - destruct M as [|m|m]; try nia.
    simpl binary_normalize. simpl Z.abs. simpl Z.ltb.
    apply binary_round_exact; assumption.
  - destruct M as [|m|m]; try nia.
    simpl binary_normalize. simpl Z.abs. simpl Z.ltb.
    apply binary_round_exact; try assumption. lia.
Qed.

Lemma of_Z_canon z : z <> 0 -> Z.abs z < 2 ^ 53 -> Num.of_Z z = Num.canon z.
Proof.
  intros Hz Hlt. apply binary_normalize_exact; try assumption; lia.
Qed.

Lemma of_Z_0 : Num.of_Z 0 = S754_zero false.
Proof. reflexivity. Qed.

Lemma canon_opp z : z <> 0 -> SFopp (Num.canon z) = Num.canon (- z).
Proof.
  intros Hz. unfold Num.canon. simpl. rewrite Z.abs_opp. f_equal.
  destruct z; try easy.
Qed.

(** The aligned mantissa of a canonical integer, signed, is the integer
    scaled. *)
Lemma aligned_canon z ez :
  z <> 0 -> Z.abs z < 2 ^ 53 -> ez <= Z.log2 (Z.abs z) - 52 ->
  cond_Zopp (z <? 0)
    (Zpos (fst (shl_align
                  (Z.to_pos (Z.abs z * 2 ^ (52 - Z.log2 (Z.abs z))))
                  (Z.log2 (Z.abs z) - 52) ez)))
  = z * 2 ^ (- ez).
Proof.
  intros Hz Hlt Hez.
  assert (Ha : 0 < Z.abs z) by lia.
  assert (Hl0 : 0 <= Z.log2 (Z.abs z)) by apply Z.log2_nonneg.
  assert (Hl : Z.log2 (Z.abs z) < 53) by (apply Z.log2_lt_pow2; lia).
  set (l := Z.log2 (Z.abs z)) in *.
  assert (HQpos : 0 < Z.abs z * 2 ^ (52 - l))
    by (apply Z.mul_pos_pos; [lia|apply Z.pow_pos_nonneg; lia]).
  assert (Hmag :
    Zpos (fst (shl_align (Z.to_pos (Z.abs z * 2 ^ (52 - l))) (l - 52) ez))
    = Z.abs z * 2 ^ (- ez)).
  { unfold shl_align. destruct (ez - (l - 52)) as [|n|n] eqn:Hn; try lia.
    - cbn [fst]. rewrite Z2Pos.id by exact HQpos. do 2 f_equal. lia.
    - cbn [fst]. rewrite Zpos_iter_xO, Z2Pos.id by exact HQpos.
      rewrite <- Z.mul_assoc, <- Z.pow_add_r by lia. do 2 f_equal. lia. }
  rewrite Hmag. unfold cond_Zopp.
  destruct (Z.ltb_spec z 0); lia.
Qed.

(** Subtraction of integers is exact while operands and result stay
    below [2^53]. *)
Lemma sub_of_Z a b :
  Z.abs a < 2 ^ 53 -> Z.abs b < 2 ^ 53 -> Z.abs (a - b) < 2 ^ 53 ->
  Num.sub (Num.of_Z a) (Num.of_Z b) = Num.of_Z (a - b).
Proof.
  intros Ha Hb Hab.
  destruct (Z.eq_dec b 0) as [-> | Hb0].
  - rewrite Z.sub_0_r. rewrite of_Z_0.
    destruct (Z.eq_dec a 0) as [-> | Ha0]; [reflexivity|].
    rewrite of_Z_canon by assumption. reflexivity.
  - destruct (Z.eq_dec a 0) as [-> | Ha0].
    + rewrite of_Z_0, !of_Z_canon by (assumption || lia).
      simpl Z.sub. rewrite <- canon_opp by assumption. reflexivity.
    + rewrite (of_Z_canon a), (of_Z_canon b) by assumption.
      unfold Num.canon at 1 2. unfold Num.sub, SFsub.
      set (ez := Z.min (Z.log2 (Z.abs a) - 52) (Z.log2 (Z.abs b) - 52)).
      assert (Hez : ez <= 0).
      { assert (Z.log2 (Z.abs a) < 53) by (apply Z.log2_lt_pow2; lia). lia. }
      rewrite !aligned_canon by (assumption || lia).
      destruct (Z.eq_dec (a - b) 0) as [Hz | Hnz].
      * replace (a * 2 ^ (- ez) - b * 2 ^ (- ez)) with 0 by nia.
        rewrite Hz. reflexivity.
      * rewrite of_Z_canon by assumption.
        apply binary_normalize_exact; try assumption. lia.
Qed.

(** So is multiplication. *)
Lemma mul_of_Z a b :
  a <> 0 -> b <> 0 -> Z.abs (a * b) < 2 ^ 53 ->
  Num.mul (Num.of_Z a) (Num.of_Z b) = Num.of_Z (a * b).
Proof.
  intros Ha0 Hb0 Hab.
  assert (Ha : Z.abs a < 2 ^ 53) by nia.
  assert (Hb : Z.abs b < 2 ^ 53) by nia.
  rewrite !of_Z_canon by (assumption || nia).
  unfold Num.canon. unfold Num.mul, SFmul.
  assert (Hla0 : 0 <= Z.log2 (Z.abs a)) by apply Z.log2_nonneg.
  assert (Hlb0 : 0 <= Z.log2 (Z.abs b)) by apply Z.log2_nonneg.
  assert (Hla : Z.log2 (Z.abs a) < 53) by (apply Z.log2_lt_pow2; lia).
  assert (Hlb : Z.log2 (Z.abs b) < 53) by (apply Z.log2_lt_pow2; lia).
  assert (Hlab : Z.log2 (Z.abs (a * b)) < 53) by (apply Z.log2_lt_pow2; lia).
  assert (Hsum : Z.log2 (Z.abs a) + Z.log2 (Z.abs b) <= Z.log2 (Z.abs (a * b))).
  { rewrite Z.abs_mul. apply Z.log2_mul_below; lia. }
  set (la := Z.log2 (Z.abs a)) in *. set (lb := Z.log2 (Z.abs b)) in *.
  set (lab := Z.log2 (Z.abs (a * b))) in *.
  assert (Hpa : 0 < 2 ^ (52 - la)) by (apply Z.pow_pos_nonneg; lia).
  assert (Hpb : 0 < 2 ^ (52 - lb)) by (apply Z.pow_pos_nonneg; lia).
  assert (Hpab : 0 < 2 ^ (52 - lab)) by (apply Z.pow_pos_nonneg; lia).
  assert (Hsign : xorb (a <? 0) (b <? 0) = (a * b <? 0)).
  { destruct (Z.ltb_spec a 0), (Z.ltb_spec b 0), (Z.ltb_spec (a * b) 0);
      simpl; try reflexivity; nia. }
  rewrite Hsign.
  apply binary_round_aux_exact.
  - assert (Hpow : 2 ^ (52 - la) * 2 ^ (52 - lb)
                   = 2 ^ (52 - lab)
                     * 2 ^ (lab - 52 - (la - 52 + (lb - 52)))).
    { rewrite <- !Z.pow_add_r by lia. f_equal. lia. }
    rewrite Pos2Z.inj_mul, !Z2Pos.id by nia.
    rewrite Z.abs_mul.
    transitivity (Z.abs a * Z.abs b * (2 ^ (52 - la) * 2 ^ (52 - lb)));
      [ring | rewrite Hpow; ring].
  - rewrite Z2Pos.id by nia. rewrite Z.log2_mul_pow2 by lia. fold lab. lia.
  - lia.
  - lia.
Qed.

Lemma truncate_of_Z z : Z.abs z < 2 ^ 53 -> Num.truncate (Num.of_Z z) = Some z.
Proof.
  intros Hlt. destruct (Z.eq_dec z 0) as [-> | Hz]; [reflexivity|].
  rewrite of_Z_canon by assumption. unfold Num.canon, Num.truncate.
  assert (Ha : 0 < Z.abs z) by lia.
  assert (Hl0 : 0 <= Z.log2 (Z.abs z)) by apply Z.log2_nonneg.
  assert (Hl : Z.log2 (Z.abs z) < 53) by (apply Z.log2_lt_pow2; lia).
  set (l := Z.log2 (Z.abs z)) in *.
  assert (Hp : 0 < 2 ^ (52 - l)) by (apply Z.pow_pos_nonneg; lia).
  assert (Hmag :
    match l - 52 with
    | Zneg k => Z.shiftr (Zpos (Z.to_pos (Z.abs z * 2 ^ (52 - l)))) (Zpos k)
    | _ => Z.shiftl (Zpos (Z.to_pos (Z.abs z * 2 ^ (52 - l)))) (l - 52)
    end = Z.abs z).
  { rewrite Z2Pos.id by nia.
    destruct (l - 52) as [|k|k] eqn:Hk; try lia.
    - replace (52 - l) with 0 by lia.
      rewrite Z.shiftl_0_r, Z.pow_0_r. lia.
    - replace (52 - l) with (Zpos k) by lia.
      rewrite Z.shiftr_div_pow2 by lia. apply Z.div_mul.
      apply Z.pow_nonzero; lia. }
  rewrite Hmag. f_equal. destruct (Z.ltb_spec z 0); lia.
Qed.

Lemma of_Z_truthy z :
  z <> 0 -> Z.abs z < 2 ^ 53 -> Num.ToBoolean (Num.of_Z z) = true.
Proof. intros Hz Hlt. now rewrite of_Z_canon. Qed.

Lemma max_time_below : Date.max_time < 2 ^ 53.
Proof. reflexivity. Qed.

Lemma TimeClip_of_Z z :
  Z.abs z <= Date.max_time -> Date.TimeClip (Num.of_Z z) = Some z.
Proof.
  intros Hz. unfold Date.TimeClip.
  rewrite truncate_of_Z by (pose proof max_time_below; lia).
  destruct (Z.leb_spec (Z.abs z) Date.max_time); [reflexivity|lia].
Qed.

(** The start of the window when the interval is a whole number of
    milliseconds. *)
Lemma StartTime_whole cfg c interval :
  cfg_POLLING_INTERVAL cfg = Num.of_Z interval ->
  Z.abs interval < 2 ^ 53 ->
  Z.abs (now c) <= Date.max_time ->
  Z.abs (now c - interval) <= Date.max_time ->
  StartTime cfg c = Some (now c - interval).
Proof.
  intros Hcfg Hi Hnow Hstart. pose proof max_time_below.
  unfold StartTime, EndTime, Date.of_number, Date.getTime.
  rewrite Hcfg, sub_of_Z by lia. now apply TimeClip_of_Z.
Qed.

(** A whole, non-zero number of seconds gives that many thousand
    milliseconds. *)
Lemma POLLING_INTERVAL_whole_seconds Number_ env seconds :
  Number_ (POLLING_INTERVAL_SECONDS env) = Num.of_Z seconds ->
  seconds <> 0 -> Z.abs (seconds * 1000) < 2 ^ 53 ->
  POLLING_INTERVAL Number_ env = Num.of_Z (seconds * 1000).
Proof.
  intros HN Hs Hlt. unfold POLLING_INTERVAL, Num.or_else.
  rewrite HN, mul_of_Z by (assumption || lia).
  now rewrite of_Z_truthy by (assumption || lia).
Qed.

End NumFacts.

(* ================================================================== *)
(** * The time window and the polling interval *)
(* ================================================================== *)

(** C8 (amended).  In a poll cycle in which POLLING_INTERVAL is a
    positive whole number of milliseconds (below [2^53]), with the clock
    and the clock less the interval in the range of valid dates,
    [StartTime] is exactly [EndTime] less the interval: the window starts
    before it ends, and its length is the polling interval. *)
Theorem window_of_whole_interval cfg c interval :
  cfg_POLLING_INTERVAL cfg = Num.of_Z interval ->
  (0 < interval < 2 ^ 53)%Z ->
  (Z.abs (now c) <= Date.max_time)%Z ->
  (- Date.max_time <= now c - interval)%Z ->
  exists start_ end_,
    StartTime cfg c = Some start_ /\
    EndTime c = Some end_ /\
    (start_ < end_)%Z /\
    (end_ - start_ = interval)%Z.
Proof.
  intros Hcfg Hi Hnow Hstart.
  exists (now c - interval)%Z, (now c). repeat split; try lia.
  apply NumFacts.StartTime_whole; try assumption; lia.
Qed.

(** C10.  When [Number(process.env.POLLING_INTERVAL_SECONDS) * 1000] is
    NaN or a zero, POLLING_INTERVAL is 10000.  Loading the module does
    not fail for it: with a collector named it succeeds, and every cycle
    whose clock is a valid date at least ten seconds above the least one
    has the window from ten seconds before the clock to the clock, which
    is neither empty nor inverted. *)
Theorem falsy_interval_defaults
    (Number_ : option jsstring -> number) (env : Env) :
  let product :=
    Num.mul (Number_ (POLLING_INTERVAL_SECONDS env)) (Num.of_Z 1000) in
  (product = Num.NaN \/ exists s, product = S754_zero s) ->
  POLLING_INTERVAL Number_ env = Num.of_Z 10000 /\
  forall url,
    OTEL_COLLECTOR_URL env = Some url -> url <> [] ->
    exists cfg,
      load Number_ env = inr cfg /\
      cfg_POLLING_INTERVAL cfg = Num.of_Z 10000 /\
      forall c,
        (Z.abs (now c) <= Date.max_time)%Z ->
        (- Date.max_time <= now c - 10000)%Z ->
        StartTime cfg c = Some (now c - 10000)%Z /\
        EndTime c = Some (now c) /\
        (now c - 10000 < now c)%Z.
Proof.
  intros product Hfalsy.
  assert (Hdefault : POLLING_INTERVAL Number_ env = Num.of_Z 10000).
  { unfold POLLING_INTERVAL, Num.or_else. fold product.
    destruct Hfalsy as [-> | [s ->]]; reflexivity. }
  split; [exact Hdefault|].
  intros url Hurl Hne. eexists. split; [|split].
  - unfold load. rewrite Hurl. destruct url; [easy|]. reflexivity.
  - exact Hdefault.
  - intros c Hnow Hstart. repeat split; try lia.
    apply NumFacts.StartTime_whole; simpl; try assumption; try lia.
Qed.

Lemma window_of_whole_interval_witness :
  load Ecma.Number_ (Sample.env_with_interval "10") = inr Sample.cfg /\
  exists start_ end_,
    StartTime Sample.cfg Sample.quiet_cycle = Some start_ /\
    EndTime Sample.quiet_cycle = Some end_ /\
    (start_ < end_)%Z /\
    (end_ - start_ = 10000)%Z.
Proof.
  split; [vm_compute; reflexivity|].
  apply (window_of_whole_interval Sample.cfg Sample.quiet_cycle 10000).
  - reflexivity.
  - split; reflexivity.
  - vm_compute. discriminate.
  - vm_compute. discriminate.
Defined.

(** C8 as the specification words it fails in two ways.  With
    POLLING_INTERVAL_SECONDS set to [-5] the interval is -5000 and the
    window starts five seconds after it ends.  With it set to
    [0.0000001], a positive interval, the subtraction rounds back to the
    clock: the window starts where it ends, and its length, zero, is not
    the interval. *)
Lemma window_inverted_or_empty :
  (load Ecma.Number_ (Sample.env_with_interval "-5")
   = inr Sample.cfg_minus_five /\
   StartTime Sample.cfg_minus_five Sample.quiet_cycle
   = Some (Sample.clock + 5000)%Z /\
   EndTime Sample.quiet_cycle = Some Sample.clock) /\
  (load Ecma.Number_ (Sample.env_with_interval "0.0000001")
   = inr Sample.cfg_tenth_of_microsecond /\
   Num.ToBoolean (cfg_POLLING_INTERVAL Sample.cfg_tenth_of_microsecond)
   = true /\
   StartTime Sample.cfg_tenth_of_microsecond Sample.quiet_cycle
   = Some Sample.clock /\
   EndTime Sample.quiet_cycle = Some Sample.clock).
Proof. vm_compute. repeat split. Qed.

Lemma falsy_interval_defaults_witness :
  Ecma.Number_ None = Num.NaN /\
  Ecma.Number_ (Some (js "every minute")) = Num.NaN /\
  Ecma.Number_ (Some (js "0")) = S754_zero false /\
  POLLING_INTERVAL Ecma.Number_ Sample.env = Num.of_Z 10000 /\
  POLLING_INTERVAL Ecma.Number_ (Sample.env_with_interval "every minute")
  = Num.of_Z 10000 /\
  POLLING_INTERVAL Ecma.Number_ (Sample.env_with_interval "0")
  = Num.of_Z 10000 /\
  exists cfg,
    load Ecma.Number_ Sample.env = inr cfg /\
    StartTime cfg Sample.quiet_cycle = Some (Sample.clock - 10000)%Z /\
    EndTime Sample.quiet_cycle = Some Sample.clock.
Proof.
  do 3 (split; [vm_compute; reflexivity|]).
  split; [|split; [|split]].
  - apply (falsy_interval_defaults Ecma.Number_ Sample.env).
    left. vm_compute. reflexivity.
  - apply (falsy_interval_defaults Ecma.Number_
             (Sample.env_with_interval "every minute")).
    left. vm_compute. reflexivity.
  - apply (falsy_interval_defaults Ecma.Number_
             (Sample.env_with_interval "0")).
    right. exists false. vm_compute. reflexivity.
  - destruct (falsy_interval_defaults Ecma.Number_ Sample.env) as [_ H].
    + left. vm_compute. reflexivity.
    + destruct (H (js "otel-collector")) as (cfg & Hload & _ & Hwin).
      * reflexivity.
      * discriminate.
      * exists cfg. split; [exact Hload|].
        destruct (Hwin Sample.quiet_cycle) as (Hs & He & _).
        -- vm_compute. discriminate.
        -- vm_compute. discriminate.
        -- split; assumption.
Defined.

(* ================================================================== *)
(** * Further properties: identifiers, codec and datagrams *)
(* ================================================================== *)

(** The identifiers [fetchTraces] takes from a page of summaries are the
    [Id]s that are present and not empty, in the order of the page: the
    summaries without one are passed over.  There are none at all
    ([undefined]) exactly when the page has no [TraceSummaries]. *)
Theorem trace_ids_keeps_named (page : GetTraceSummariesResult) :
  (trace_ids page = None <-> TraceSummaries page = None) /\
  forall summaries,
    TraceSummaries page = Some summaries ->
    exists ids,
      trace_ids page = Some ids /\
      map Some ids = filter truthy_string (map Id summaries) /\
      Forall (fun id => id <> []) ids /\
      length ids <= length summaries.
Proof.
  unfold trace_ids. split.
  - destruct (TraceSummaries page); simpl; split; intros H;
      try discriminate; reflexivity.
  - intros summaries ->. simpl. eexists. split; [reflexivity|].
    induction summaries as [|[[[|c id]|]] summaries (IH1 & IH2 & IH3)];
      simpl; repeat split; try assumption; try lia; try constructor;
      try assumption; try discriminate.
    now rewrite IH1.
Qed.

Lemma trace_ids_keeps_named_witness :
  trace_ids {| TraceSummaries :=
                 Some [ {| Id := Some (js "1-a") |}; {| Id := None |};
                        {| Id := Some [] |}; {| Id := Some (js "1-b") |} ] |}
  = Some [js "1-a"; js "1-b"].
Proof.
  destruct (trace_ids_keeps_named
              {| TraceSummaries :=
                   Some [ {| Id := Some (js "1-a") |}; {| Id := None |};
                          {| Id := Some [] |}; {| Id := Some (js "1-b") |} ] |})
    as [_ H].
  destruct (H _ eq_refl) as (ids & Hids & Hmap & _).
  rewrite Hids. f_equal.
  apply (f_equal (flat_map (fun o => match o with
                                     | Some x => [x]
                                     | None => []
                                     end))) in Hmap.
  rewrite flat_map_concat_map, map_map in Hmap. simpl in Hmap.
  rewrite <- flat_map_concat_map in Hmap.
  replace (flat_map (fun x : jsstring => [x]) ids) with ids in Hmap.
  - exact Hmap.
  - clear. induction ids; simpl; congruence.
Defined.

Section FurtherCodec.
Variable JSON_parse : jsstring -> Exception + JsValue.
Variable cfg : Config.

Local Notation "'callback'" := (send_segment JSON_parse cfg).
Local Notation "'send_traces'" := (sendTracesToOtelUdp JSON_parse cfg).

(** Whether a parsed Document is forwarded goes by the truthiness of its
    [inferred], not by its being [true]: a Document that parses to a
    value other than [null] is sent when [inferred] is falsy (absent,
    [false], [null], [0], the empty string; so is every Document that is
    a number, a string, a boolean or an array) and passed over in silence
    when it is truthy (also a non-empty string, a non-zero number, an
    object, an array). *)
Theorem forwarding_goes_by_truthiness trace document value :
  Document trace = Some document ->
  document <> [] ->
  JSON_parse document = inr value ->
  value <> JNull ->
  (truthy (inferred_of value) = false <->
   callback trace = ([datagram_of cfg document], Normal tt)) /\
  (truthy (inferred_of value) = true <->
   callback trace = ([], Normal tt)).
Proof.
  intros Hdoc Hne Hparse Hnull.
  rewrite (send_segment_parsed JSON_parse cfg trace document value)
    by assumption.
  destruct (truthy (inferred_of value)); split; split; intros H;
    try reflexivity; try discriminate.
Qed.



End FurtherCodec.

Lemma encode_code_point_length (c : code_unit) :
  is_code_unit c = true ->
  1 <= length (Utf8.encode_code_point c) <= 3.
Proof.
  unfold is_code_unit, Utf8.encode_code_point. intros H.
  destruct (c <? 128)%N; [simpl; lia|].
  destruct (c <? 2048)%N; [simpl; lia|].
  rewrite H. simpl. lia.
Qed.

Lemma encode_pair_length (hi lo : code_unit) :
  length (Utf8.encode_code_point (Utf8.pair_code_point hi lo)) = 4.
Proof.
  unfold Utf8.encode_code_point, Utf8.pair_code_point.
  assert (H : (0x10000 <= 0x10000 + (hi - 0xD800) * 0x400 + (lo - 0xDC00))%N)
    by lia.
  destruct (N.ltb_spec (0x10000 + (hi - 0xD800) * 0x400 + (lo - 0xDC00)) 0x80);
    [lia|].
  destruct (N.ltb_spec (0x10000 + (hi - 0xD800) * 0x400 + (lo - 0xDC00)) 0x800);
    [lia|].
  destruct (N.ltb_spec (0x10000 + (hi - 0xD800) * 0x400 + (lo - 0xDC00))
              0x10000); [lia|].
  reflexivity.
Qed.

(** Every code unit becomes one to three bytes (a surrogate pair, two
    units, becomes four). *)
Lemma encode_length (s : jsstring) :
  forallb is_code_unit s = true ->
  length s <= length (Buffer_from s) <= 3 * length s.
Proof.
  unfold Buffer_from.
  enough (H : (forallb is_code_unit s = true ->
               length s <= length (Utf8.encode s) <= 3 * length s) /\
              forall c, forallb is_code_unit (c :: s) = true ->
                length (c :: s) <= length (Utf8.encode (c :: s))
                <= 3 * length (c :: s)) by apply H.
  induction s as [|d s [IH1 IH2]].
  - split; [simpl; lia|]. intros c H. simpl in H.
    apply andb_true_iff in H. destruct H as [Hc _].
    pose proof (encode_code_point_length c Hc) as Hl. simpl.
    destruct (Utf8.is_high_surrogate c); [simpl; lia|].
    destruct (Utf8.is_low_surrogate c); [simpl; lia|].
    rewrite app_nil_r. lia.
  - split; [apply IH2|]. intros c H.
    change (forallb is_code_unit (c :: d :: s))
      with (is_code_unit c && forallb is_code_unit (d :: s)) in H.
    apply andb_true_iff in H. destruct H as [Hc Hds].
    pose proof (encode_code_point_length c Hc) as Hl.
    specialize (IH2 d Hds).
    assert (Hs : forallb is_code_unit s = true).
    { simpl in Hds. now apply andb_true_iff in Hds. }
    specialize (IH1 Hs).
    change (Utf8.encode (c :: d :: s))
      with (if Utf8.is_high_surrogate c then
              if Utf8.is_low_surrogate d
              then Utf8.encode_code_point (Utf8.pair_code_point c d)
                   ++ Utf8.encode s
              else Utf8.replacement ++ Utf8.encode (d :: s)
            else if Utf8.is_low_surrogate c
                 then Utf8.replacement ++ Utf8.encode (d :: s)
                 else Utf8.encode_code_point c ++ Utf8.encode (d :: s)).
    cbn [length] in *.
    destruct (Utf8.is_high_surrogate c).
    + destruct (Utf8.is_low_surrogate d).
      * rewrite length_app, encode_pair_length. lia.
      * rewrite length_app. cbn [length Utf8.replacement]. lia.
    + destruct (Utf8.is_low_surrogate c);
        rewrite length_app; cbn [length Utf8.replacement]; lia.
Qed.

Lemma encode_ascii (s : jsstring) :
  forallb is_ascii s = true -> Buffer_from s = map Utf8.octet s.
Proof.
  unfold Buffer_from. induction s as [|c s IH]; simpl; intros H;
    [reflexivity|].
  apply andb_true_iff in H. destruct H as [Hc Hs].
  unfold is_ascii in Hc. pose proof Hc as Hlt. apply N.ltb_lt in Hlt.
  assert (Hhi : Utf8.is_high_surrogate c = false).
  { unfold Utf8.is_high_surrogate. apply andb_false_iff. left.
    apply N.leb_gt. lia. }
  assert (Hlo : Utf8.is_low_surrogate c = false).
  { unfold Utf8.is_low_surrogate. apply andb_false_iff. left.
    apply N.leb_gt. lia. }
  rewrite Hhi, Hlo, IH by exact Hs.
  unfold Utf8.encode_code_point. now rewrite Hc.
Qed.

(** A Document of [n] code units travels in a datagram of at least
    [33 + n] and at most [33 + 3 n] bytes, all of which are handed to
    [send] (offset 0, the whole length).  A Document of ASCII characters
    travels byte for character, after the 33 bytes of header line and
    newline. *)
Theorem datagram_size (cfg : Config) (document : jsstring) :
  forallb is_code_unit document = true ->
  exists message,
    datagram_of cfg document
    = UdpSend message 0 (length message) 2000 (cfg_OTEL_COLLECTOR_URL cfg) /\
    33 + length document <= length message <= 33 + 3 * length document /\
    (forallb is_ascii document = true ->
     message = envelope_prefix ++ map Utf8.octet document /\
     length message = 33 + length document).
Proof.
  intros Hunits. exists (Buffer_from (header ++ [newline] ++ document)).
  split; [reflexivity|].
  rewrite envelope_bytes, length_app.
  pose proof (encode_length document Hunits) as Hl.
  change (length envelope_prefix) with 33. split; [lia|].
  intros Hascii. rewrite (encode_ascii document Hascii).
  split; [reflexivity|]. rewrite length_map. reflexivity.
Qed.

(** The header line holds no newline byte: whoever cuts a datagram at its
    first newline is left with the bytes of the Document, whole, even
    when the Document has newlines of its own. *)
Theorem document_follows_first_newline (cfg : Config) (document : jsstring)
    message offset length_ port address :
  datagram_of cfg document = UdpSend message offset length_ port address ->
  after_first_newline message = Some (Buffer_from document) /\
  firstn 33 message = envelope_prefix.
Proof.
  intros H.
  assert (Hm : message = Buffer_from (header ++ [newline] ++ document))
    by (unfold datagram_of in H; congruence).
  rewrite Hm, envelope_bytes. split; reflexivity.
Qed.

(* ================================================================== *)
(** * Further properties: whole cycles and whole runs *)
(* ================================================================== *)

Lemma Forall_events_bind {A B} (P : Event -> Prop) (m : M A) (k : A -> M B) :
  Forall P (events m) ->
  (forall a, Forall P (events (k a))) ->
  Forall P (events (bind m k)).
Proof.
  intros Hm Hk. rewrite events_bind. apply Forall_app. split; [exact Hm|].
  destruct (completion m); [apply Hk | constructor | constructor].
Qed.

Lemma Forall_events_forEach {A} (P : Event -> Prop) (xs : list A)
      (f : A -> M unit) :
  (forall x, In x xs -> Forall P (events (f x))) ->
  Forall P (events (forEach xs f)).
Proof.
  induction xs as [|x xs IH]; simpl; intros Hf; [constructor|].
  apply Forall_events_bind; [apply Hf; now left|].
  intros _. apply IH. intros y Hy. apply Hf. now right.
Qed.

Lemma trace_ids_not_empty page traceIds :
  trace_ids page = Some traceIds -> Forall (fun id => id <> []) traceIds.
Proof.
  unfold trace_ids. destruct (TraceSummaries page) as [summaries|];
    [|discriminate].
  simpl. intros H. injection H as <-.
  induction summaries as [|[[[|c id]|]] summaries IH]; simpl;
    try assumption; constructor; [discriminate|assumption].
Qed.

Section FurtherCycle.
Variable JSON_parse : jsstring -> Exception + JsValue.
Variable cfg : Config.

Local Notation "'callback'" := (send_segment JSON_parse cfg).
Local Notation "'send_traces'" := (sendTracesToOtelUdp JSON_parse cfg).
Local Notation "'read_traces'" := (for_await_traces JSON_parse cfg).
Local Notation "'read_summaries'" := (for_await_summaries JSON_parse cfg).
Local Notation "'body'" := (page_body JSON_parse cfg).
Local Notation "'fetch'" := (fetch_batch JSON_parse cfg).
Local Notation "'loop_of'" :=
  (fun c => read_summaries (xray c)
              (paginateGetTraceSummaries (xray c) (StartTime cfg c)
                 (EndTime c) (cfg_FILTER_EXPRESSION cfg))).

Lemma callback_loop_events trace :
  Forall (loop_event cfg) (events (callback trace)).
Proof.
  destruct (send_segment_cases JSON_parse cfg trace)
    as [H | (document & Hdoc & H)]; rewrite H; [constructor|].
  simpl. constructor; [|constructor]. apply le_datagram. intros ->.
  rewrite send_segment_no_document in H by (now rewrite Hdoc).
  discriminate.
Qed.

Lemma read_traces_loop_events pages :
  Forall (loop_event cfg) (events (read_traces pages)).
Proof.
  induction pages as [|page next IH|e]; simpl; try constructor.
  apply Forall_events_bind; [|intros _; exact IH].
  destruct (Traces page) as [traces|]; simpl; [|constructor].
  apply Forall_events_forEach. intros traceData _.
  unfold sendTracesToOtelUdp.
  destruct (Segments traceData) as [segments|]; simpl; [|constructor].
  apply Forall_events_forEach. intros trace _. apply callback_loop_events.
Qed.

Lemma body_loop_events service traceIds :
  Forall (fun id => id <> []) traceIds ->
  Forall (loop_event cfg) (events (body service traceIds)).
Proof.
  intros Hids.
  destruct (page_body_chunks JSON_parse cfg service traceIds)
    as (chunks & _ & _ & Hall & Hcat & ->).
  simpl. constructor; [constructor|]. apply Forall_app. split.
  - apply Forall_events_forEach. intros batch Hin. unfold fetch_batch.
    apply Forall_events_bind; [|intros _; apply read_traces_loop_events].
    simpl. constructor; [|constructor]. apply le_batch.
    + rewrite Forall_forall in Hall. apply (Hall batch Hin).
    + rewrite <- Hcat in Hids. rewrite Forall_concat in Hids.
      rewrite Forall_forall in Hids. apply (Hids batch Hin).
  - destruct (completion _); constructor; constructor.
Qed.

Lemma read_summaries_loop_events service pages :
  Forall (loop_event cfg) (events (read_summaries service pages)).
Proof.
  induction pages as [|page next IH|e]; simpl; try constructor.
  destruct (trace_ids page) as [traceIds|] eqn:Hids.
  - apply Forall_events_bind; [|intros _; exact IH].
    apply body_loop_events. now apply trace_ids_not_empty with page.
  - simpl. constructor; constructor.
Qed.


Lemma main_events_kinds n world :
  Forall (fun ev =>
            loop_event cfg ev \/
            (exists e, ev = error_line e) \/
            ev = ConsoleLog [LStr "Polling X-Ray for traces"] \/
            ev = Sleep (cfg_POLLING_INTERVAL cfg))
    (events (main JSON_parse cfg n world)).
Proof.
  unfold main. rewrite main_from_rounds. simpl.
  apply Forall_flat_map. apply Forall_forall. intros i _.
  unfold round_events. constructor; [auto|].
  apply Forall_app. split; [|constructor; [auto|constructor]].
  rewrite fetchTraces_of_loop. cbv zeta.
  pose proof (read_summaries_loop_events (xray (world i))
                (paginateGetTraceSummaries (xray (world i))
                   (StartTime cfg (world i)) (EndTime (world i))
                   (cfg_FILTER_EXPRESSION cfg))) as Hloop.
  destruct (completion _) as [[]|e|]; simpl.
  - eapply Forall_impl; [|exact Hloop]. auto.
  - apply Forall_app. split.
    + eapply Forall_impl; [|exact Hloop]. auto.
    + constructor; [|constructor]. right. left. now exists e.
  - eapply Forall_impl; [|exact Hloop]. auto.
Qed.

(** However long the process runs and whatever the service answers, it
    never asks BatchGetTraces for more than five traces at a time, nor
    for none, nor for a trace with an empty identifier. *)
Theorem batch_reads_within_limit n world ids :
  In (BatchGetTraces ids) (events (main JSON_parse cfg n world)) ->
  1 <= length ids <= 5 /\ Forall (fun id => id <> []) ids.
Proof.
  intros Hin. pose proof (main_events_kinds n world) as H.
  rewrite Forall_forall in H.
  destruct (H _ Hin) as [Hl | [[e He] | [He | He]]];
    try discriminate.
  remember (BatchGetTraces ids) as ev.
  destruct Hl; try discriminate.
  injection Heqev as <-. split; assumption.
Qed.

(** However long the process runs, every datagram it sends goes whole
    (offset 0, the full length) to port 2000 of the configured collector,
    and is the header line, a newline and a non-empty Document, encoded:
    nothing else is ever put on the wire. *)
Theorem every_datagram_is_an_envelope n world
    message offset length_ port address :
  In (UdpSend message offset length_ port address)
     (events (main JSON_parse cfg n world)) ->
  offset = 0 /\ length_ = length message /\ port = 2000 /\
  address = cfg_OTEL_COLLECTOR_URL cfg /\
  exists document,
    document <> [] /\
    message = Buffer_from (header ++ [newline] ++ document) /\
    message = envelope_prefix ++ Buffer_from document.
Proof.
  intros Hin. pose proof (main_events_kinds n world) as H.
  rewrite Forall_forall in H.
  destruct (H _ Hin) as [Hl | [[e He] | [He | He]]];
    try discriminate.
  assert (Hd : exists document,
             document <> [] /\
             UdpSend message offset length_ port address
             = datagram_of cfg document).
  { remember (UdpSend message offset length_ port address) as ev.
    destruct Hl; try discriminate. now exists document. }
  destruct Hd as (document & Hne & Heq). unfold datagram_of in Heq.
  assert (Hm : message = Buffer_from (header ++ [newline] ++ document))
    by congruence.
  assert (Ho : offset = 0) by congruence.
  assert (Hp : port = 2000) by congruence.
  assert (Ha : address = cfg_OTEL_COLLECTOR_URL cfg) by congruence.
  assert (Hlen : length_
                 = length (Buffer_from (header ++ [newline] ++ document)))
    by congruence.
  repeat (split; [congruence|]).
  exists document. split; [assumption|]. split; [assumption|].
  rewrite Hm. apply envelope_bytes.
Qed.

End FurtherCycle.

Section FurtherEndings.
Variable JSON_parse : jsstring -> Exception + JsValue.
Variable cfg : Config.

Local Notation "'callback'" := (send_segment JSON_parse cfg).
Local Notation "'send_traces'" := (sendTracesToOtelUdp JSON_parse cfg).
Local Notation "'read_traces'" := (for_await_traces JSON_parse cfg).
Local Notation "'read_summaries'" := (for_await_summaries JSON_parse cfg).
Local Notation "'body'" := (page_body JSON_parse cfg).
Local Notation "'fetch'" := (fetch_batch JSON_parse cfg).

(** A page whose summaries all lack an identifier is not a page without
    summaries: the loop logs that it found 0 traces and sent 0, asks for
    no batch, and goes on with the next page. *)
Theorem page_without_identifiers_is_skipped service page next summaries :
  TraceSummaries page = Some summaries ->
  Forall (fun summary => truthy_string (Id summary) = false) summaries ->
  read_summaries service (Yield page next)
  = (found_line 0 :: sent_line 0 :: events (read_summaries service next),
     completion (read_summaries service next)).
Proof.
  intros Hpage Hall.
  assert (Hids : trace_ids page = Some []).
  { unfold trace_ids. rewrite Hpage. simpl. f_equal. clear Hpage.
    induction Hall as [|summary summaries Hs _ IH]; simpl; [reflexivity|].
    rewrite Hs. exact IH. }
  simpl. rewrite Hids. unfold page_body. simpl.
  now destruct (read_summaries service next).
Qed.

(** A page with no [TraceSummaries] at all ends the cycle on the spot and
    without an error: the line [No trace IDs found] is logged and
    [fetchTraces] returns; the pages that would follow are never asked
    for, whatever they hold. *)
Theorem page_without_summaries_ends_cycle c pages_before page next evs_pages :
  paginateGetTraceSummaries (xray c) (StartTime cfg c) (EndTime c)
    (cfg_FILTER_EXPRESSION cfg)
  = pages_then pages_before (Yield page next) ->
  Forall (fun page => trace_ids page <> None) pages_before ->
  read_summaries (xray c) (pages_then pages_before Done)
  = (evs_pages, Normal tt) ->
  TraceSummaries page = None ->
  fetchTraces JSON_parse cfg c
  = (evs_pages ++ [ConsoleLog [LStr "No trace IDs found"]], Normal tt).
Proof.
  intros Hpages Hids Hbefore Hpage.
  unfold fetchTraces. rewrite Hpages.
  rewrite (for_await_summaries_then JSON_parse cfg _ _ _ _ Hids Hbefore).
  simpl. unfold trace_ids. rewrite Hpage. reflexivity.
Qed.

(** A summary read that fails, on its first page or on a later one, ends
    the cycle with the pages before it worked through and the failure
    logged; when it fails on the first page the error line is all the
    cycle does. *)
Theorem summary_failure_ends_cycle c pages_before err evs_pages :
  paginateGetTraceSummaries (xray c) (StartTime cfg c) (EndTime c)
    (cfg_FILTER_EXPRESSION cfg)
  = pages_then pages_before (Fail err) ->
  Forall (fun page => trace_ids page <> None) pages_before ->
  read_summaries (xray c) (pages_then pages_before Done)
  = (evs_pages, Normal tt) ->
  fetchTraces JSON_parse cfg c = (evs_pages ++ [error_line err], Normal tt).
Proof.
  intros Hpages Hids Hbefore.
  unfold fetchTraces. rewrite Hpages.
  rewrite (for_await_summaries_then JSON_parse cfg _ _ _ _ Hids Hbefore).
  simpl. now rewrite app_nil_r.
Qed.

(** An exception that leaves a batch read ends the cycle there. *)
Lemma cycle_ends_in_batch c pages_before page next traceIds
    batches_before batch batches_after evs_pages evs_batches evs_batch e :
  paginateGetTraceSummaries (xray c) (StartTime cfg c) (EndTime c)
    (cfg_FILTER_EXPRESSION cfg)
  = pages_then pages_before (Yield page next) ->
  Forall (fun page => trace_ids page <> None) pages_before ->
  read_summaries (xray c) (pages_then pages_before Done)
  = (evs_pages, Normal tt) ->
  trace_ids page = Some traceIds ->
  batchArray traceIds 5 = Some (batches_before ++ batch :: batches_after) ->
  forEach batches_before (fetch (xray c)) = (evs_batches, Normal tt) ->
  fetch (xray c) batch = (evs_batch, Throw e) ->
  fetchTraces JSON_parse cfg c
  = (evs_pages
       ++ found_line (length traceIds) :: evs_batches
       ++ evs_batch ++ [error_line e],
     Normal tt).
Proof.
  intros Hpages Hids Hbefore Hpage Hb Hbatches Hread.
  pose proof (forEach_throw batches_before batches_after batch
                (fetch (xray c)) evs_batches _ e Hbatches Hread) as Hloop.
  assert (Hbody : body (xray c) traceIds
                  = (found_line (length traceIds) :: evs_batches
                       ++ evs_batch, Throw e)).
  { unfold page_body. rewrite Hb, Hloop. reflexivity. }
  unfold fetchTraces. rewrite Hpages.
  rewrite (for_await_summaries_then JSON_parse cfg _ _ _ _ Hids Hbefore).
  simpl. rewrite Hpage, Hbody. simpl.
  f_equal. rewrite <- app_assoc. f_equal. simpl. f_equal.
  now rewrite <- app_assoc.
Qed.

(** A batch read that fails part of the way ends the cycle: the traces of
    the pages it had yielded stay sent, the failure is logged, and the
    batches and summary pages that remain are never asked for. *)
Theorem batch_failure_ends_cycle c pages_before page next traceIds
    batches_before batch batches_after trace_pages_before err
    evs_pages evs_batches evs_trace_pages :
  paginateGetTraceSummaries (xray c) (StartTime cfg c) (EndTime c)
    (cfg_FILTER_EXPRESSION cfg)
  = pages_then pages_before (Yield page next) ->
  Forall (fun page => trace_ids page <> None) pages_before ->
  read_summaries (xray c) (pages_then pages_before Done)
  = (evs_pages, Normal tt) ->
  trace_ids page = Some traceIds ->
  batchArray traceIds 5 = Some (batches_before ++ batch :: batches_after) ->
  forEach batches_before (fetch (xray c)) = (evs_batches, Normal tt) ->
  paginateBatchGetTraces (xray c) batch
  = pages_then trace_pages_before (Fail err) ->
  read_traces (pages_then trace_pages_before Done)
  = (evs_trace_pages, Normal tt) ->
  fetchTraces JSON_parse cfg c
  = (evs_pages
       ++ found_line (length traceIds) :: evs_batches
       ++ (BatchGetTraces batch :: evs_trace_pages) ++ [error_line err],
     Normal tt).
Proof.
  intros Hpages Hids Hbefore Hpage Hb Hbatches Hbatch Htpages.
  apply (cycle_ends_in_batch c pages_before page next traceIds
           batches_before batch batches_after); try assumption.
  unfold fetch_batch. rewrite Hbatch.
  rewrite (for_await_traces_then JSON_parse cfg _ _ _ Htpages). simpl.
  now rewrite app_nil_r.
Qed.

(** A segment whose Document is the text [null] ends the cycle as a
    malformed one does: reading [inferred] off [null] throws a TypeError,
    which nothing catches before the [catch] of [fetchTraces]. *)
Theorem null_document_ends_cycle c pages_before page next traceIds
    batches_before batch batches_after
    trace_pages_before traces_before segments_before bad segments_after
    traces_after more_pages document
    evs_pages evs_batches evs_trace_pages evs_traces evs_segments :
  paginateGetTraceSummaries (xray c) (StartTime cfg c) (EndTime c)
    (cfg_FILTER_EXPRESSION cfg)
  = pages_then pages_before (Yield page next) ->
  Forall (fun page => trace_ids page <> None) pages_before ->
  read_summaries (xray c) (pages_then pages_before Done)
  = (evs_pages, Normal tt) ->
  trace_ids page = Some traceIds ->
  batchArray traceIds 5 = Some (batches_before ++ batch :: batches_after) ->
  forEach batches_before (fetch (xray c)) = (evs_batches, Normal tt) ->
  paginateBatchGetTraces (xray c) batch
  = pages_then trace_pages_before
      (Yield {| Traces :=
                  Some (traces_before
                        ++ {| Segments :=
                                Some (segments_before
                                      ++ bad :: segments_after) |}
                        :: traces_after) |} more_pages) ->
  read_traces (pages_then trace_pages_before Done)
  = (evs_trace_pages, Normal tt) ->
  forEach traces_before send_traces = (evs_traces, Normal tt) ->
  forEach segments_before callback = (evs_segments, Normal tt) ->
  Document bad = Some document ->
  document <> [] ->
  JSON_parse document = inr JNull ->
  fetchTraces JSON_parse cfg c
  = (evs_pages
       ++ found_line (length traceIds) :: evs_batches
       ++ (BatchGetTraces batch :: evs_trace_pages
             ++ evs_traces ++ evs_segments)
       ++ [error_line null_read_error],
     Normal tt).
Proof.
  intros Hpages Hids Hbefore Hpage Hb Hbatches Hbatch Htpages Htraces Hsegs
         Hdoc Hne Hparse.
  apply (cycle_ends_in_batch c pages_before page next traceIds
           batches_before batch batches_after); try assumption.
  pose proof (send_segment_null JSON_parse cfg bad document
                Hdoc Hne Hparse) as Hbad.
  pose proof (forEach_throw segments_before segments_after bad callback
                evs_segments [] _ Hsegs Hbad) as Htrace.
  rewrite app_nil_r in Htrace.
  pose proof (forEach_throw traces_before traces_after
                {| Segments := Some (segments_before ++ bad :: segments_after) |}
                send_traces evs_traces evs_segments _ Htraces Htrace)
    as Htpage.
  unfold fetch_batch. rewrite Hbatch.
  rewrite (for_await_traces_then JSON_parse cfg _ _ _ Htpages). simpl.
  rewrite Htpage. reflexivity.
Qed.

End FurtherEndings.

(* ================================================================== *)
(** * Further properties: configuration and time windows *)
(* ================================================================== *)

(** Whatever the environment holds, a module that loads has a polling
    interval that is neither zero nor NaN (the fallback sees to that; it
    may still be negative or infinite), a destination that is the
    non-empty OTEL_COLLECTOR_URL, and the filter expression as it
    stands in the environment, be it empty. *)
Theorem loaded_config (Number_ : option jsstring -> number)
    (env : Env) (cfg : Config) :
  load Number_ env = inr cfg ->
  Num.ToBoolean (cfg_POLLING_INTERVAL cfg) = true /\
  cfg_POLLING_INTERVAL cfg = POLLING_INTERVAL Number_ env /\
  OTEL_COLLECTOR_URL env = Some (cfg_OTEL_COLLECTOR_URL cfg) /\
  cfg_OTEL_COLLECTOR_URL cfg <> [] /\
  cfg_FILTER_EXPRESSION cfg = FILTER_EXPRESSION env.
Proof.
  unfold load. destruct (OTEL_COLLECTOR_URL env) as [[|c url]|];
    simpl; try discriminate.
  intros H. injection H as <-. simpl. repeat split; try discriminate.
  unfold POLLING_INTERVAL, Num.or_else.
  destruct (Num.ToBoolean
              (Num.mul (Number_ (POLLING_INTERVAL_SECONDS env))
                 (Num.of_Z 1000))) eqn:Ht; [exact Ht|reflexivity].
Qed.

(** A whole number of seconds in POLLING_INTERVAL_SECONDS, positive and
    of a sensible size, gives exactly a thousand times as many
    milliseconds, and every cycle the window of that length ending at the
    clock. *)
Theorem whole_seconds_window (Number_ : option jsstring -> number)
    (env : Env) (cfg : Config) (c : Cycle) (seconds : Z) :
  load Number_ env = inr cfg ->
  Number_ (POLLING_INTERVAL_SECONDS env) = Num.of_Z seconds ->
  (0 < seconds)%Z -> (seconds * 1000 < 2 ^ 53)%Z ->
  (Z.abs (now c) <= Date.max_time)%Z ->
  (- Date.max_time <= now c - seconds * 1000)%Z ->
  cfg_POLLING_INTERVAL cfg = Num.of_Z (seconds * 1000) /\
  StartTime cfg c = Some (now c - seconds * 1000)%Z /\
  EndTime c = Some (now c).
Proof.
  intros Hload HN Hpos Hlt Hnow Hstart.
  assert (Hcfg : cfg_POLLING_INTERVAL cfg = Num.of_Z (seconds * 1000)).
  { assert (H : cfg_POLLING_INTERVAL cfg = POLLING_INTERVAL Number_ env).
    { unfold load in Hload.
      destruct (OTEL_COLLECTOR_URL env) as [[|u url]|]; simpl in Hload;
        try discriminate.
      injection Hload as <-. reflexivity. }
    rewrite H.
    apply NumFacts.POLLING_INTERVAL_whole_seconds; try assumption; lia. }
  split; [exact Hcfg|]. split; [|reflexivity].
  apply NumFacts.StartTime_whole; try assumption; lia.
Qed.

(** A negative whole interval turns the window round: [StartTime] lies
    after [EndTime], by the size of the interval, in every cycle. *)
Theorem negative_interval_inverts_window (cfg : Config) (c : Cycle)
    (interval : Z) :
  cfg_POLLING_INTERVAL cfg = Num.of_Z interval ->
  (- 2 ^ 53 < interval < 0)%Z ->
  (Z.abs (now c) <= Date.max_time)%Z ->
  (now c - interval <= Date.max_time)%Z ->
  exists start_ end_,
    StartTime cfg c = Some start_ /\
    EndTime c = Some end_ /\
    (end_ < start_)%Z /\
    (start_ - end_ = - interval)%Z.
Proof.
  intros Hcfg Hi Hnow Hstart.
  exists (now c - interval)%Z, (now c). repeat split; try lia.
  apply NumFacts.StartTime_whole; try assumption; lia.
Qed.

(** An infinite interval (POLLING_INTERVAL_SECONDS set to [Infinity], or
    to a number whose thousandfold overflows) makes [StartTime] an
    invalid date in every cycle. *)
Theorem infinite_interval_invalid_start (cfg : Config) (c : Cycle)
    (negative : bool) :
  cfg_POLLING_INTERVAL cfg = S754_infinity negative ->
  (Z.abs (now c) <= Date.max_time)%Z ->
  StartTime cfg c = None /\ EndTime c = Some (now c).
Proof.
  intros Hcfg Hnow. split; [|reflexivity].
  unfold StartTime, EndTime, Date.of_number, Date.getTime. rewrite Hcfg.
  destruct (Z.eq_dec (now c) 0) as [-> | Hnz]; [reflexivity|].
  rewrite NumFacts.of_Z_canon; [reflexivity|assumption|].
  pose proof NumFacts.max_time_below. lia.
Qed.


(* ================================================================== *)
(** * Further properties: [batchArray] for any size *)
(* ================================================================== *)

Section FurtherBatchArray.
Variable A : Type.
Implicit Types (array : list A) (chunks : list (list A)).




Lemma batchArray_from_size_zero array i fuel :
  i < length array -> batchArray_from fuel array 0 i = None.
Proof.
  intros Hi. induction fuel as [|fuel IH]; simpl; [reflexivity|].
  apply Nat.ltb_lt in Hi. rewrite Hi, Nat.add_0_r, IH. reflexivity.
Qed.

(** An empty array has no chunks, whatever the size asked for.  With a
    size of 0 and an array that is not empty the loop never gets past its
    first index: there is no last chunk, however long one lets it run. *)
Theorem batchArray_edges :
  (forall size, batchArray (@nil A) size = Some []) /\
  (forall array fuel,
     array <> [] -> batchArray_from fuel array 0 0 = None) /\
  (forall array, array <> [] -> batchArray array 0 = None).
Proof.
  split; [reflexivity|]. split.
  - intros array fuel Hne. apply batchArray_from_size_zero.
    destruct array; [easy|simpl; lia].
  - intros array Hne. apply batchArray_from_size_zero.
    destruct array; [easy|simpl; lia].
Qed.

End FurtherBatchArray.

(* ================================================================== *)
(** * The further properties at work on the sample inputs *)
(* ================================================================== *)

Lemma forwarding_goes_by_truthiness_witness :
  send_segment Json.parse Sample.cfg (Sample.segment Sample.inferred_null)
  = ([datagram_of Sample.cfg Sample.inferred_null], Normal tt) /\
  send_segment Json.parse Sample.cfg (Sample.segment Sample.bare_number)
  = ([datagram_of Sample.cfg Sample.bare_number], Normal tt) /\
  send_segment Json.parse Sample.cfg (Sample.segment Sample.inferred_text)
  = ([], Normal tt).
Proof.
  split; [|split].
  - apply (forwarding_goes_by_truthiness Json.parse Sample.cfg
             (Sample.segment Sample.inferred_null) Sample.inferred_null
             (JObject [(js "id", JString (js "1"));
                       (js "inferred", JNull)])).
    + reflexivity.
    + discriminate.
    + vm_compute. reflexivity.
    + discriminate.
    + reflexivity.
  - apply (forwarding_goes_by_truthiness Json.parse Sample.cfg
             (Sample.segment Sample.bare_number) Sample.bare_number
             (JNumber (Num.of_Z 5))).
    + reflexivity.
    + discriminate.
    + vm_compute. reflexivity.
    + discriminate.
    + reflexivity.
  - apply (forwarding_goes_by_truthiness Json.parse Sample.cfg
             (Sample.segment Sample.inferred_text) Sample.inferred_text
             (JObject [(js "id", JString (js "1"));
                       (js "inferred", JString (js "false"))])).
    + reflexivity.
    + discriminate.
    + vm_compute. reflexivity.
    + discriminate.
    + reflexivity.
Defined.


Lemma datagram_size_witness :
  exists message,
    datagram_of Sample.cfg Sample.plain
    = UdpSend message 0 (length message) 2000 (js "otel-collector") /\
    length message = 33 + length Sample.plain /\
    message = envelope_prefix ++ map Utf8.octet Sample.plain.
Proof.
  destruct (datagram_size Sample.cfg Sample.plain) as (message & H1 & _ & H3).
  - vm_compute. reflexivity.
  - exists message. split; [exact H1|].
    destruct H3 as [H3 H4]; [vm_compute; reflexivity|].
    split; assumption.
Defined.

Lemma document_follows_first_newline_witness :
  after_first_newline
    (Buffer_from (header ++ [newline] ++ js "{}" ++ [newline] ++ js "{}"))
  = Some (Buffer_from (js "{}" ++ [newline] ++ js "{}")).
Proof.
  apply (document_follows_first_newline Sample.cfg
           (js "{}" ++ [newline] ++ js "{}") _ 0
           (length (Buffer_from
                      (header ++ [newline] ++ js "{}" ++ [newline] ++ js "{}")))
           2000 (js "otel-collector")).
  reflexivity.
Defined.

Lemma batch_reads_within_limit_witness :
  1 <= length [js "1-f"; js "1-g"] <= 5 /\
  Forall (fun id => id <> []) [js "1-f"; js "1-g"].
Proof.
  apply (batch_reads_within_limit Json.parse Sample.cfg 1
           (fun _ => Sample.quiet_cycle)).
  vm_compute. do 8 right. left. reflexivity.
Defined.

Lemma every_datagram_is_an_envelope_witness :
  exists document,
    document <> [] /\
    Buffer_from (header ++ [newline] ++ Sample.plain)
    = Buffer_from (header ++ [newline] ++ document) /\
    Buffer_from (header ++ [newline] ++ Sample.plain)
    = envelope_prefix ++ Buffer_from document.
Proof.
  apply (every_datagram_is_an_envelope Json.parse Sample.cfg 1
           (fun _ => Sample.quiet_cycle)
           (Buffer_from (header ++ [newline] ++ Sample.plain)) 0
           (length (Buffer_from (header ++ [newline] ++ Sample.plain)))
           2000 (js "otel-collector")).
  vm_compute. do 3 right. left. reflexivity.
Defined.

Lemma page_without_identifiers_is_skipped_witness :
  for_await_summaries Json.parse Sample.cfg (xray Sample.quiet_cycle)
    (Yield {| TraceSummaries := Some [ {| Id := None |}; {| Id := Some [] |} ] |}
       (Fail Sample.throttled))
  = ([found_line 0; sent_line 0], Throw Sample.throttled).
Proof.
  apply (page_without_identifiers_is_skipped Json.parse Sample.cfg
           (xray Sample.quiet_cycle)
           {| TraceSummaries := Some [ {| Id := None |}; {| Id := Some [] |} ] |}
           (Fail Sample.throttled)
           [ {| Id := None |}; {| Id := Some [] |} ]).
  - reflexivity.
  - repeat constructor.
Defined.

Lemma page_without_summaries_ends_cycle_witness :
  fetchTraces Json.parse Sample.cfg Sample.no_summaries_cycle
  = ([found_line 1; BatchGetTraces [js "1-a"];
      datagram_of Sample.cfg Sample.plain; sent_line 1]
       ++ [ConsoleLog [LStr "No trace IDs found"]],
     Normal tt).
Proof.
  apply (page_without_summaries_ends_cycle Json.parse Sample.cfg
           Sample.no_summaries_cycle
           [Sample.summaries [js "1-a"]] {| TraceSummaries := None |}
           (Fail Sample.throttled)).
  - reflexivity.
  - repeat constructor. discriminate.
  - vm_compute. reflexivity.
  - reflexivity.
Defined.

Lemma summary_failure_ends_cycle_witness :
  fetchTraces Json.parse Sample.cfg Sample.first_page_fails
  = ([] ++ [error_line Sample.throttled], Normal tt).
Proof.
  apply (summary_failure_ends_cycle Json.parse Sample.cfg
           Sample.first_page_fails [] Sample.throttled []).
  - reflexivity.
  - constructor.
  - reflexivity.
Defined.

Lemma batch_failure_ends_cycle_witness :
  fetchTraces Json.parse Sample.cfg Sample.batch_fails_cycle
  = ([] ++ found_line 7 :: []
       ++ (BatchGetTraces [js "1-a"; js "1-b"; js "1-c"; js "1-d"; js "1-e"]
             :: [datagram_of Sample.cfg Sample.plain])
       ++ [error_line Sample.throttled],
     Normal tt).
Proof.
  apply (batch_failure_ends_cycle Json.parse Sample.cfg
           Sample.batch_fails_cycle
           [] (Sample.summaries Sample.seven) Done Sample.seven
           [] [js "1-a"; js "1-b"; js "1-c"; js "1-d"; js "1-e"]
           [[js "1-f"; js "1-g"]]
           [ {| Traces := Some [Sample.trace_of [Sample.plain]] |} ]
           Sample.throttled).
  - reflexivity.
  - constructor.
  - reflexivity.
  - reflexivity.
  - reflexivity.
  - reflexivity.
  - reflexivity.
  - vm_compute. reflexivity.
Defined.

Lemma null_document_ends_cycle_witness :
  fetchTraces Json.parse Sample.cfg Sample.null_cycle
  = ([] ++ found_line 1 :: []
       ++ (BatchGetTraces [js "1-a"]
             :: [] ++ [] ++ [datagram_of Sample.cfg Sample.plain])
       ++ [error_line null_read_error],
     Normal tt).
Proof.
  apply (null_document_ends_cycle Json.parse Sample.cfg Sample.null_cycle
           [] (Sample.summaries [js "1-a"]) Done [js "1-a"]
           [] [js "1-a"] []
           [] [] [Sample.segment Sample.plain] (Sample.segment (js "null"))
           [Sample.segment Sample.plain] [] Done (js "null")).
  - reflexivity.
  - constructor.
  - reflexivity.
  - reflexivity.
  - reflexivity.
  - reflexivity.
  - reflexivity.
  - reflexivity.
  - reflexivity.
  - vm_compute. reflexivity.
  - reflexivity.
  - discriminate.
  - reflexivity.
Defined.

Lemma loaded_config_witness :
  Num.ToBoolean (cfg_POLLING_INTERVAL Sample.cfg_minus_five) = true /\
  cfg_OTEL_COLLECTOR_URL Sample.cfg_minus_five <> [].
Proof.
  destruct (loaded_config Ecma.Number_ (Sample.env_with_interval "-5")
              Sample.cfg_minus_five) as (H1 & _ & _ & H4 & _).
  - vm_compute. reflexivity.
  - split; assumption.
Defined.

Lemma whole_seconds_window_witness :
  StartTime Sample.cfg Sample.quiet_cycle
  = Some (Sample.clock - 10 * 1000)%Z /\
  EndTime Sample.quiet_cycle = Some Sample.clock.
Proof.
  apply (whole_seconds_window Ecma.Number_ (Sample.env_with_interval "10")
           Sample.cfg Sample.quiet_cycle 10).
  - vm_compute. reflexivity.
  - vm_compute. reflexivity.
  - reflexivity.
  - reflexivity.
  - vm_compute. discriminate.
  - vm_compute. discriminate.
Defined.

Lemma negative_interval_inverts_window_witness :
  exists start_ end_,
    StartTime Sample.cfg_minus_five Sample.quiet_cycle = Some start_ /\
    EndTime Sample.quiet_cycle = Some end_ /\
    (end_ < start_)%Z /\
    (start_ - end_ = - -5000)%Z.
Proof.
  apply (negative_interval_inverts_window Sample.cfg_minus_five
           Sample.quiet_cycle (-5000)).
  - reflexivity.
  - split; reflexivity.
  - vm_compute. discriminate.
  - vm_compute. discriminate.
Defined.

Lemma infinite_interval_invalid_start_witness :
  load Ecma.Number_ (Sample.env_with_interval "Infinity")
  = inr Sample.cfg_infinite /\
  load Ecma.Number_ (Sample.env_with_interval "1e306")
  = inr Sample.cfg_infinite /\
  StartTime Sample.cfg_infinite Sample.quiet_cycle = None /\
  EndTime Sample.quiet_cycle = Some Sample.clock.
Proof.
  do 2 (split; [vm_compute; reflexivity|]).
  apply (infinite_interval_invalid_start Sample.cfg_infinite
           Sample.quiet_cycle false).
  - reflexivity.
  - vm_compute. discriminate.
Defined.



Lemma batchArray_edges_witness :
  batchArray [js "1-a"] 0 = None /\
  batchArray_from 1000 [js "1-a"] 0 0 = None.
Proof.
  destruct (batchArray_edges jsstring) as (_ & Hfuel & Hzero).
  split; [apply Hzero | apply Hfuel]; discriminate.
Defined.
